(** * Secure Tar Archive Processor ([src/main.py]): a shallow embedding

    The program walks the members of a tar archive and either lists them
    ([SecureTarProcessor.list_archive]) or writes them under a destination
    directory ([SecureTarProcessor.extract_archive]), enforcing a ceiling on
    the number of members and on the cumulative size of regular files.

    What the program takes from its libraries is modelled first:
    - [PurePath]: the lexical part of [pathlib.Path] (parsing, [/], [parent],
      [stem], [str]);
    - [Fs]: a POSIX directory tree without symbolic links, with the system
      calls the program reaches ([mkdir], [open(.., 'wb')] followed by
      [write], and the [stat] behind [Path.is_dir]) and [Path.mkdir];
    - [Tar.stream]: what [tarfile.open] followed by iteration delivers.
    The two methods and [_get_type_char] follow, statement by statement,
    then [main] from the parsed command line on: it checks that the archive
    exists and turns the result of a method into an exit status. *)

From Stdlib Require Import ZArith String Ascii List Lia Bool.
From Stdlib Require Import Decimal DecimalString.
From stdpp Require Import base option list strings gmap fin_maps.

Import ListNotations.
Local Open Scope string_scope.
Local Open Scope Z_scope.

(** ** Python string formatting *)
Module Fmt.

(** [c * n] for a one-character string. *)
Fixpoint replicate_char (n : nat) (c : ascii) : string :=
  match n with
  | O => EmptyString
  | S n' => String c (replicate_char n' c)
  end.

(** [str(n)] for an [int]. *)
Definition str_int (n : Z) : string := NilZero.string_of_int (Z.to_int n).

(** [format(s, '40')]: left-justified in [w] columns, never truncated. *)
Definition ljust (w : nat) (s : string) : string :=
  s ++ replicate_char (w - String.length s) " ".

(** [format(n, '>10')]: right-justified in [w] columns, never truncated. *)
Definition rjust (w : nat) (s : string) : string :=
  replicate_char (w - String.length s) " " ++ s.

(** ["-" * 50] *)
Definition rule : string := replicate_char 50 "-".

End Fmt.

(** ** The lexical half of [pathlib] (POSIX flavour) *)
Module PurePath.

(** How a path starts: not at the root, with one slash (or three and more,
    which are one), or with exactly two slashes. POSIX lets two slashes mean
    something else than the root; [pathlib] therefore keeps them apart, and
    [str] prints them back. *)
Inductive root := Relative | Slash | DoubleSlash.

(** A parsed path: how it starts, and its components. Parsing drops empty
    components and ["."], and keeps [".."]. *)
Record t := mk { anchor : root; parts : list string }.

(** [p.is_absolute()] *)
Definition absolute (p : t) : bool :=
  match anchor p with Relative => false | _ => true end.

(** [s.split('/')], with the component being read in [cur] (reversed). *)
Fixpoint split_go (s : string) (cur : string) : list string :=
  match s with
  | EmptyString => [cur]
  | String c s' =>
      if Ascii.eqb c "/" then cur :: split_go s' EmptyString
      else split_go s' (cur ++ String c EmptyString)
  end.

Definition split (s : string) : list string := split_go s EmptyString.

Definition keep_part (c : string) : bool :=
  negb (String.eqb c "") && negb (String.eqb c ".").

(** The number of slashes [s] starts with. *)
Fixpoint leading_slashes (s : string) : nat :=
  match s with
  | String c s' => if Ascii.eqb c "/" then S (leading_slashes s') else O
  | EmptyString => O
  end.

Definition root_of (s : string) : root :=
  match leading_slashes s with
  | O => Relative
  | 2%nat => DoubleSlash
  | _ => Slash
  end.

(** [Path(s)] *)
Definition of_string (s : string) : t :=
  {| anchor := root_of s; parts := List.filter keep_part (split s) |}.

Fixpoint join_parts (ps : list string) : string :=
  match ps with
  | [] => ""
  | [p] => p
  | p :: ps' => p ++ "/" ++ join_parts ps'
  end.

(** [str(p)] *)
Definition to_string (p : t) : string :=
  match anchor p with
  | Relative =>
      match parts p with
      | [] => "."
      | _ => join_parts (parts p)
      end
  | Slash => "/" ++ join_parts (parts p)
  | DoubleSlash => "//" ++ join_parts (parts p)
  end.

(** [p / q]: an absolute right operand replaces the left one. *)
Definition join (p q : t) : t :=
  if absolute q then q
  else {| anchor := anchor p; parts := parts p ++ parts q |}.

(** [p / s] for a string [s]. *)
Definition joinpath (p : t) (s : string) : t := join p (of_string s).

(** [p.parent]: purely lexical, the last component is dropped whatever it is;
    a path with no component is its own parent. *)
Definition parent (p : t) : t :=
  {| anchor := anchor p; parts := removelast (parts p) |}.

(** [p.name] *)
Definition name (p : t) : string := List.last (parts p) "".

(** [s.rfind('.')], counting from [i]. *)
Fixpoint rfind_dot (s : string) (i : nat) : option nat :=
  match s with
  | EmptyString => None
  | String c s' =>
      match rfind_dot s' (S i) with
      | Some j => Some j
      | None => if Ascii.eqb c "." then Some i else None
      end
  end.

(** [p.stem]: the final component without its last suffix; a leading or a
    trailing dot does not start a suffix. *)
Definition stem (p : t) : string :=
  let n := name p in
  match rfind_dot n 0 with
  | Some i =>
      if (Nat.ltb 0 i && Nat.ltb i (String.length n - 1))%bool
      then String.substring 0 i n else n
  | None => n
  end.

End PurePath.

(** ** Python exceptions the program can meet

    All three are subclasses of [Exception]; [ReadError] is
    [tarfile.ReadError]. What is not an [Exception] ([KeyboardInterrupt],
    [SystemExit]) comes from outside the program and is not modelled. *)
Module Py.

Inductive errno := ENOENT | EEXIST | ENOTDIR | EISDIR.

Inductive exn :=
| ReadError (msg : string)
| OSError (e : errno) (filename : string)
| OtherException (msg : string).

Definition errno_code (e : errno) : Z :=
  match e with ENOENT => 2 | EEXIST => 17 | ENOTDIR => 20 | EISDIR => 21 end.

Definition strerror (e : errno) : string :=
  match e with
  | ENOENT => "No such file or directory"
  | EEXIST => "File exists"
  | ENOTDIR => "Not a directory"
  | EISDIR => "Is a directory"
  end.

(** [repr(s)] for a string, a character of the model standing for the code
    point of the same number: quotes and backslashes are escaped, as is what
    cannot be printed. *)
Definition printable (c : ascii) : bool :=
  let n := N_of_ascii c in
  ((32 <=? n) && (n <=? 126) || (161 <=? n) && negb (n =? 173))%N.

Definition hex_digit (n : N) : ascii :=
  ascii_of_N (if (n <? 10)%N then 48 + n else 87 + n).

Definition double_quote : ascii := ascii_of_N 34.

Definition escape (quote c : ascii) : string :=
  let n := N_of_ascii c in
  if Ascii.eqb c quote || Ascii.eqb c "\" then String "\" (String c "")
  else if (n =? 9)%N then "\t"
  else if (n =? 10)%N then "\n"
  else if (n =? 13)%N then "\r"
  else if printable c then String c ""
  else "\x" ++ String (hex_digit (n / 16)) (String (hex_digit (n mod 16)) "").

Fixpoint has_char (c : ascii) (s : string) : bool :=
  match s with
  | EmptyString => false
  | String x s' => Ascii.eqb x c || has_char c s'
  end.

Fixpoint escape_all (quote : ascii) (s : string) : string :=
  match s with
  | EmptyString => EmptyString
  | String c s' => escape quote c ++ escape_all quote s'
  end.

Definition repr (s : string) : string :=
  let quote :=
    if has_char "'" s && negb (has_char double_quote s)
    then double_quote else "'"%char in
  String quote (escape_all quote s ++ String quote "").

(** [str(e)]; an [OSError] shows its file name through [repr]. *)
Definition str (e : exn) : string :=
  match e with
  | ReadError msg => msg
  | OSError e f =>
      "[Errno " ++ Fmt.str_int (errno_code e) ++ "] " ++ strerror e
      ++ ": " ++ repr f
  | OtherException msg => msg
  end.

Definition is_ReadError (e : exn) : bool :=
  match e with ReadError _ => true | _ => false end.

End Py.

(** ** The file system

    A tree of regular files and directories keyed by the list of component
    names from [/]; the process's working directory [cwd] is a key of it.
    What the tree does not have bounds what is proved below: there are no
    symbolic or hard links in it (the program makes none, but would follow
    those it finds), no permissions and no quota, and names are taken to be
    within the lengths the file system allows. So the only failures are
    those of path lookup: a missing directory, a regular file where a
    directory is needed, a directory where a regular file is to be
    written, a node that is there already. *)
Module Fs.
Import Py.

Inductive node := File (data : list Byte.byte) | Dir.

Abbreviation tree := (gmap (list string) node).

(** Lookup of one more component from the directory [cur]. *)
Definition step (cur : list string) (c : string) : list string :=
  if String.eqb c ".." then removelast cur else cur ++ [c].

(** Path lookup as the kernel does it: every component is looked up in a
    directory that exists. The node reached need not exist. *)
Fixpoint walk (fs : tree) (cur : list string) (comps : list string)
  : errno + list string :=
  match comps with
  | [] => inr cur
  | c :: cs =>
      match fs !! cur with
      | Some Dir => walk fs (step cur c) cs
      | Some (File _) => inl ENOTDIR
      | None => inl ENOENT
      end
  end.

Section Syscalls.
Variable cwd : list string.

Definition resolve (fs : tree) (p : PurePath.t) : errno + list string :=
  walk fs (if PurePath.absolute p then [] else cwd) (PurePath.parts p).

(** [os.mkdir(p)] *)
Definition os_mkdir (p : PurePath.t) (fs : tree) : errno + tree :=
  match resolve fs p with
  | inl e => inl e
  | inr r =>
      match fs !! r with
      | Some _ => inl EEXIST
      | None => inr (<[r := Dir]> fs)
      end
  end.

(** [p.is_dir()] *)
Definition is_dir (p : PurePath.t) (fs : tree) : bool :=
  match resolve fs p with
  | inr r => match fs !! r with Some Dir => true | _ => false end
  | inl _ => false
  end.

(** [open(p, 'wb')]: the file is created, or emptied if it is there. The
    node it is at stands for the descriptor that is returned. *)
Definition open_wb (p : PurePath.t) (fs : tree)
  : exn + (list string * tree) :=
  match resolve fs p with
  | inl e => inl (OSError e (PurePath.to_string p))
  | inr r =>
      match fs !! r with
      | Some Dir => inl (OSError EISDIR (PurePath.to_string p))
      | _ => inr (r, <[r := File []]> fs)
      end
  end.

(** [dst.write(data)] for the descriptor [dst] of a file just opened. *)
Definition write (dst : list string) (data : list Byte.byte) (fs : tree)
  : tree :=
  <[dst := File data]> fs.

(** [p.mkdir(parents=False, exist_ok=exist_ok)]: a missing ancestor is
    [FileNotFoundError]; any other failure is forgiven when [exist_ok] holds
    and [p] is a directory. *)
Definition mkdir_once (exist_ok : bool) (p : PurePath.t) (fs : tree)
  : exn + tree :=
  match os_mkdir p fs with
  | inr fs' => inr fs'
  | inl ENOENT => inl (OSError ENOENT (PurePath.to_string p))
  | inl e =>
      if exist_ok && is_dir p fs then inr fs
      else inl (OSError e (PurePath.to_string p))
  end.

(** [p.mkdir(parents=True, exist_ok=exist_ok)] for the path whose components
    are [rev rparts]: on [FileNotFoundError] the parent is made first (with
    [parents=True, exist_ok=True]), then [p] itself without [parents]. When
    it fails after ancestors were made, only the exception is returned: the
    ancestors that are left on disk are not part of the result, and nothing
    below speaks of the tree after such a failure but to say what it
    keeps. *)
Fixpoint mkdir_parents (ab : PurePath.root) (rparts : list string)
  (exist_ok : bool) (fs : tree) : exn + tree :=
  let self := PurePath.mk ab (rev rparts) in
  match os_mkdir self fs with
  | inr fs' => inr fs'
  | inl ENOENT =>
      match rparts with
      | [] => inl (OSError ENOENT (PurePath.to_string self))
      | _ :: rparent =>
          match mkdir_parents ab rparent true fs with
          | inl e => inl e
          | inr fs1 => mkdir_once exist_ok self fs1
          end
      end
  | inl e =>
      if exist_ok && is_dir self fs then inr fs
      else inl (OSError e (PurePath.to_string self))
  end.

(** [p.mkdir(parents=parents, exist_ok=exist_ok)] *)
Definition mkdir (parents exist_ok : bool) (p : PurePath.t) (fs : tree)
  : exn + tree :=
  if parents
  then mkdir_parents (PurePath.anchor p) (rev (PurePath.parts p)) exist_ok fs
  else mkdir_once exist_ok p fs.

End Syscalls.
End Fs.

(** ** What [tarfile] delivers *)
Module Tar.

(** The member types the program tells apart: [isfile()], [isdir()],
    [islnk()] (hard link), [issym()] (symbolic link), and the rest
    (devices, FIFOs, ...). *)
Inductive kind := RegularFile | Directory | HardLink | SymbolicLink | Other.

(** A [TarInfo] together with what [extractfile(member).read()] does for
    it. [size] is the size the headers declare, as [tarfile] delivers it: an
    [int] that nothing keeps from being negative (a pax header with
    [GNU.sparse.realsize=-5] gives [-5]). [data] are the bytes [read()]
    returns, and [damage] the exception it raises instead when the data
    of the member cannot be read - [ReadError] for an archive that is cut
    short inside them. *)
Record TarInfo := mk {
  name : string;
  type : kind;
  size : Z;
  linkname : string;
  data : list Byte.byte;
  damage : option Py.exn
}.

(** [extractfile(member).read()] *)
Definition read (m : TarInfo) : Py.exn + list Byte.byte :=
  match damage m with
  | Some e => inl e
  | None => inr (data m)
  end.

Definition isfile (m : TarInfo) : bool :=
  match type m with RegularFile => true | _ => false end.
Definition isdir (m : TarInfo) : bool :=
  match type m with Directory => true | _ => false end.
Definition islnk (m : TarInfo) : bool :=
  match type m with HardLink => true | _ => false end.
Definition issym (m : TarInfo) : bool :=
  match type m with SymbolicLink => true | _ => false end.

(** [tarfile.open(path, 'r')] followed by [for member in tar]: the members in
    archive order, ended by the end of the archive or by the exception the
    library raises (at once when the file cannot be opened as an archive,
    later when a header is damaged or the file is truncated). *)
Inductive stream :=
| Eof
| Broken (e : Py.exn)
| Entry (m : TarInfo) (rest : stream).

(** The members [ms], then [rest]. *)
Fixpoint feed (ms : list TarInfo) (rest : stream) : stream :=
  match ms with
  | [] => rest
  | m :: ms' => Entry m (feed ms' rest)
  end.

(** An archive that is read to its end. *)
Definition archive (ms : list TarInfo) : stream := feed ms Eof.

End Tar.

(** ** Running a method: the file system and standard output are threaded
    through, and an exception leaves both as they were when it was raised. *)
Module Run.

Record state := mk { fs : Fs.tree; stdout : list string }.

Inductive outcome (A : Type) :=
| Return (a : A)
| Raise (e : Py.exn).
Arguments Return {A} a.
Arguments Raise {A} e.

Definition M (A : Type) : Type := state -> outcome A * state.

Definition ret {A} (a : A) : M A := fun s => (Return a, s).

Definition raise {A} (e : Py.exn) : M A := fun s => (Raise e, s).

Definition bind {A B} (m : M A) (k : A -> M B) : M B :=
  fun s =>
    match m s with
    | (Return a, s') => k a s'
    | (Raise e, s') => (Raise e, s')
    end.

(** A computation without effect that may raise. *)
Definition pure {A} (o : outcome A) : M A := fun s => (o, s).

(** [print(line)] *)
Definition print (line : string) : M unit :=
  fun s => (Return tt, {| fs := fs s; stdout := (stdout s ++ [line])%list |}).

(** A file-system operation. *)
Definition sys (op : Fs.tree -> Py.exn + Fs.tree) : M unit :=
  fun s =>
    match op (fs s) with
    | inr fs' => (Return tt, {| fs := fs'; stdout := stdout s |})
    | inl e => (Raise e, s)
    end.

(** A file-system operation that returns a value. *)
Definition sys_get {A} (op : Fs.tree -> Py.exn + (A * Fs.tree)) : M A :=
  fun s =>
    match op (fs s) with
    | inr (a, fs') => (Return a, {| fs := fs'; stdout := stdout s |})
    | inl e => (Raise e, s)
    end.

(** A file-system operation that does not fail. *)
Definition sys_do (op : Fs.tree -> Fs.tree) : M unit :=
  fun s => (Return tt, {| fs := op (fs s); stdout := stdout s |}).

(** A library call that returns or raises, without effect. *)
Definition lift {A} (r : Py.exn + A) : M A :=
  fun s =>
    match r with
    | inr a => (Return a, s)
    | inl e => (Raise e, s)
    end.

(** [try: body / except ...: handler / after]: every handler of the program
    catches and returns, so [after] runs only when [body] completes. *)
Definition try_except {A} (body : M unit) (handler : Py.exn -> M A)
  (after : M A) : M A :=
  fun s =>
    match body s with
    | (Return _, s') => after s'
    | (Raise e, s') => handler e s'
    end.

End Run.

Declare Scope run_scope.
Delimit Scope run_scope with run.
Notation "'let*' x ':=' m 'in' k" := (Run.bind m (fun x => k))
  (at level 10, x name, m at level 100, k at level 200) : run_scope.
Notation "m '>>' k" := (Run.bind m (fun _ => k))
  (at level 100, k at level 200, right associativity) : run_scope.

(** ** [class SecureTarProcessor] *)
Module SecureTarProcessor.
Import Run.
Local Open Scope run_scope.

Record t := mk { max_extract_size : Z; max_files : Z }.

(** [__init__(self, max_extract_size=100_000_000, max_files=1000)] *)
Definition __init__ (max_extract_size max_files : option Z) : t :=
  {| max_extract_size := default 100000000 max_extract_size;
     max_files := default 1000 max_files |}.

(** The two local counters of a walk. *)
Record totals := mk_totals { file_count : Z; total_size : Z }.

(** [file_count = 0; total_size = 0] *)
Definition zero : totals := {| file_count := 0; total_size := 0 |}.

(** [_get_type_char(self, member)] *)
Definition _get_type_char (member : Tar.TarInfo) : string :=
  if Tar.isfile member then "f"
  else if Tar.isdir member then "d"
  else if Tar.islnk member then "l"
  else if Tar.issym member then "s"
  else "?".

(** The head of both loop bodies (lines 30-40 of [list_archive], and the same
    statements at lines 76-86 of [extract_archive]): count the member, then
    add the size of a regular file, raising as soon as a ceiling is passed. *)
Definition check_limits (self : t) (tot : totals) (member : Tar.TarInfo)
  : outcome totals :=
  let file_count := file_count tot + 1 in
  if max_files self <? file_count then
    Raise (Py.ReadError
             ("Too many files (>" ++ Fmt.str_int (max_files self) ++ ")"))
  else if Tar.isfile member then
    let total_size := total_size tot + Tar.size member in
    if max_extract_size self <? total_size then
      Raise (Py.ReadError
               ("Archive too large (>"
                ++ Fmt.str_int (max_extract_size self) ++ " bytes)"))
    else Return {| file_count := file_count; total_size := total_size |}
  else Return {| file_count := file_count; total_size := total_size tot |}.

(** The line [list_archive] prints for a member:
    [f"{type_char} {member.name:40} {member.size:>10} bytes"]. *)
Definition member_line (member : Tar.TarInfo) : string :=
  _get_type_char member ++ " " ++ Fmt.ljust 40 (Tar.name member) ++ " "
  ++ Fmt.rjust 10 (Fmt.str_int (Tar.size member)) ++ " bytes".

(** [for member in tar: ...] of [list_archive]. *)
Fixpoint list_loop (self : t) (tar : Tar.stream) (tot : totals) : M totals :=
  match tar with
  | Tar.Eof => ret tot
  | Tar.Broken e => raise e
  | Tar.Entry member rest =>
      let* tot' := pure (check_limits self tot member) in
      print (member_line member) >>
      list_loop self rest tot'
  end.

(** [list_archive(self, tar_path)], [tar] being what [tarfile] delivers for
    [tar_path]. *)
Definition list_archive (self : t) (tar_path : string) (tar : Tar.stream)
  : M bool :=
  print ("Listing contents of: " ++ tar_path) >>
  print Fmt.rule >>
  try_except
    (let* tot := list_loop self tar zero in
     print Fmt.rule >>
     print ("Total files: " ++ Fmt.str_int (file_count tot)) >>
     print ("Total size: " ++ Fmt.str_int (total_size tot) ++ " bytes"))
    (fun e =>
       if Py.is_ReadError e
       then print ("Error reading tar file: " ++ Py.str e) >> ret false
       else print ("Unexpected error: " ++ Py.str e) >> ret false)
    (ret true).

Section Extract.
Variable cwd : list string.

(** The tail of the loop body of [extract_archive] (lines 88-99). For a
    regular file the target is opened, so created or emptied, before the
    data of the member are read. *)
Definition extract_member (extract_path : PurePath.t) (member : Tar.TarInfo)
  : M unit :=
  let safe_path := PurePath.joinpath extract_path (Tar.name member) in
  sys (Fs.mkdir cwd true true (PurePath.parent safe_path)) >>
  if Tar.isfile member then
    let* dst := sys_get (Fs.open_wb cwd safe_path) in
    let* content := lift (Tar.read member) in
    sys_do (Fs.write dst content) >>
    print ("Extracted: " ++ Tar.name member)
  else if Tar.isdir member then
    sys (Fs.mkdir cwd false true safe_path) >>
    print ("Created directory: " ++ Tar.name member)
  else ret tt.

(** [for member in tar: ...] of [extract_archive]. *)
Fixpoint extract_loop (self : t) (extract_path : PurePath.t)
  (tar : Tar.stream) (tot : totals) : M totals :=
  match tar with
  | Tar.Eof => ret tot
  | Tar.Broken e => raise e
  | Tar.Entry member rest =>
      let* tot' := pure (check_limits self tot member) in
      extract_member extract_path member >>
      extract_loop self extract_path rest tot'
  end.

(** The destination of [extract_archive] (lines 61-64): [extract_to], or the
    archive's stem followed by ["_extracted"]. *)
Definition extract_path_of (tar_path : string) (extract_to : option string)
  : PurePath.t :=
  let extract_to :=
    match extract_to with
    | None => PurePath.stem (PurePath.of_string tar_path) ++ "_extracted"
    | Some d => d
    end in
  PurePath.of_string extract_to.

(** [extract_archive(self, tar_path, extract_to=None)] *)
Definition extract_archive (self : t) (tar_path : string) (tar : Tar.stream)
  (extract_to : option string) : M bool :=
  let extract_path := extract_path_of tar_path extract_to in
  sys (Fs.mkdir cwd false true extract_path) >>
  print ("Extracting " ++ tar_path ++ " to "
         ++ PurePath.to_string extract_path) >>
  print Fmt.rule >>
  try_except
    (let* tot := extract_loop self extract_path tar zero in
     print Fmt.rule >>
     print ("Extraction complete: " ++ Fmt.str_int (file_count tot)
            ++ " files, " ++ Fmt.str_int (total_size tot) ++ " bytes"))
    (fun e =>
       if Py.is_ReadError e
       then print ("Error extracting tar file: " ++ Py.str e) >> ret false
       else print ("Unexpected error: " ++ Py.str e) >> ret false)
    (ret true).

End Extract.
End SecureTarProcessor.

(** ** The vocabulary of the specification

    The specification speaks of names that resolve lexically inside the
    destination root, of the canonical destination of a name, and of
    archives within the limits. The program computes none of these; they are
    defined here from the specification's words, to state what the program
    does. *)
Module Spec.

(** Canonicalisation is lexical: the components are walked from a starting
    node, a name going down and [".."] going up, the root being its own
    parent. It is path lookup ([Fs.step]) without a tree. *)
Definition norm_from (start : list string) (comps : list string)
  : list string :=
  fold_left Fs.step comps start.

(** The canonicalised join of the destination root - the node [D], given by
    its names from [/] - and a relative member name. *)
Definition canonical (D : list string) (name : string) : list string :=
  norm_from D (PurePath.parts (PurePath.of_string name)).

(** The verdict of the Path Sanitizer: the name is not absolute, and the
    canonicalised join has the root as a prefix, component by component. *)
Definition accepts (D : list string) (name : string) : bool :=
  negb (PurePath.absolute (PurePath.of_string name))
  && bool_decide (D `prefix_of` canonical D name).

(** The cumulative declared size of the regular files of [ms]. *)
Fixpoint file_bytes (ms : list Tar.TarInfo) : Z :=
  match ms with
  | [] => 0
  | m :: ms' =>
      (if Tar.isfile m then Tar.size m else 0) + file_bytes ms'
  end.

(** entryCount <= maxEntryCount and cumulativeFileSize <= maxTotalSize. *)
Definition within_limits (self : SecureTarProcessor.t)
  (ms : list Tar.TarInfo) : Prop :=
  Z.of_nat (length ms) <= SecureTarProcessor.max_files self
  /\ file_bytes ms <= SecureTarProcessor.max_extract_size self.

End Spec.

(** ** Where the members of an archive go

    For a destination directory [D] (the node the destination path resolves
    to) and a member with a relative name: the node the member itself goes
    to, and the nodes that have to be directories for it to get there. *)
Module Plan.

Definition comps (m : Tar.TarInfo) : list string :=
  PurePath.parts (PurePath.of_string (Tar.name m)).

(** The node the name of [m] denotes under [D]. *)
Definition dest_of (D : list string) (m : Tar.TarInfo) : list string :=
  Spec.canonical D (Tar.name m).

(** [p] has to be a directory for [m]: it is [D], or a node on the way to
    the destination of [m], or that destination when [m] is a directory. *)
Definition needs_dir (D : list string) (m : Tar.TarInfo) (p : list string)
  : Prop :=
  p = D
  \/ exists k : nat,
       ((k < length (comps m))%nat
        \/ (Tar.isdir m = true /\ k = length (comps m)))
       /\ p = Spec.norm_from D (take k (comps m)).

(** No regular file of the archive goes where the archive needs a
    directory. *)
Definition compatible (D : list string) (ms : list Tar.TarInfo) : Prop :=
  forall m m' : Tar.TarInfo,
    In m ms -> In m' ms -> Tar.isfile m = true ->
    ~ needs_dir D m' (dest_of D m).

(** The tree has no regular file where the archive needs a directory, and no
    directory where a regular file of the archive goes. *)
Definition fits (fs : Fs.tree) (D : list string) (ms : list Tar.TarInfo)
  : Prop :=
  (forall (m : Tar.TarInfo) (p : list string) (d : list Byte.byte),
      In m ms -> needs_dir D m p -> fs !! p <> Some (Fs.File d))
  /\ (forall m : Tar.TarInfo,
        In m ms -> Tar.isfile m = true -> fs !! dest_of D m <> Some Fs.Dir).

(** What dealing with [m] may change from [fs] to [fs']: directories that
    [m] needs appear, and the file of [m] is written. *)
Definition touched (D : list string) (m : Tar.TarInfo) (fs fs' : Fs.tree)
  : Prop :=
  forall p : list string,
    fs' !! p = fs !! p
    \/ (fs !! p = None /\ fs' !! p = Some Fs.Dir /\ needs_dir D m p)
    \/ (Tar.isfile m = true /\ p = dest_of D m
        /\ fs' !! p = Some (Fs.File (Tar.data m))).

(** The nodes [m] needs as directories, listed, and the two conditions as
    tests that can be run on an archive. *)
Definition needed_dirs (D : list string) (m : Tar.TarInfo)
  : list (list string) :=
  (D :: map (fun k => Spec.norm_from D (take k (comps m)))
          (seq 0 (length (comps m)))
     ++ (if Tar.isdir m then [Spec.norm_from D (comps m)] else []))%list.

Definition compatibleb (D : list string) (ms : list Tar.TarInfo) : bool :=
  forallb
    (fun m =>
       negb (Tar.isfile m)
       || forallb
            (fun m' => negb (bool_decide (dest_of D m ∈ needed_dirs D m')))
            ms)
    ms.

Definition is_file (o : option Fs.node) : bool :=
  match o with Some (Fs.File _) => true | _ => false end.

Definition is_directory (o : option Fs.node) : bool :=
  match o with Some Fs.Dir => true | _ => false end.

Definition fitsb (fs : Fs.tree) (D : list string) (ms : list Tar.TarInfo)
  : bool :=
  forallb
    (fun m =>
       forallb (fun p => negb (is_file (fs !! p))) (needed_dirs D m)
       && (negb (Tar.isfile m) || negb (is_directory (fs !! dest_of D m))))
    ms.

(** [p] is the normal form, from [D], of a prefix of the components [q]. *)
Definition on_way (D q p : list string) : Prop :=
  exists k : nat,
    (k <= length q)%nat /\ p = Spec.norm_from D (take k q).

(** No regular file stands on the way of [q] under [D]. *)
Definition clear_way (fs : Fs.tree) (D q : list string) : Prop :=
  forall (p : list string) (d : list Byte.byte),
    on_way D q p -> fs !! p <> Some (Fs.File d).

(** From [fs] to [fs'], only directories on the way of [q] appeared. *)
Definition added_within (fs fs' : Fs.tree) (D q : list string) : Prop :=
  forall p : list string,
    fs' !! p = fs !! p
    \/ (fs !! p = None /\ fs' !! p = Some Fs.Dir /\ on_way D q p).

(** The path [root] leads to the directory [D]. *)
Definition rooted (cwd : list string) (fs : Fs.tree) (root : PurePath.t)
  (D : list string) : Prop :=
  Fs.resolve cwd fs root = inr D /\ fs !! D = Some Fs.Dir.

End Plan.

(** ** How one tree follows another *)
Module Inv.
Import Fs.

(** Directories stay. *)
Definition keeps_dirs (fs fs' : tree) : Prop :=
  forall p : list string, fs !! p = Some Dir -> fs' !! p = Some Dir.

(** Nothing changed but directories that were added. *)
Definition adds_dirs (fs fs' : tree) : Prop :=
  forall p : list string,
    fs' !! p = fs !! p \/ (fs !! p = None /\ fs' !! p = Some Dir).

End Inv.

(** ** What the two methods print, by occasion *)
Module Report.
Import SecureTarProcessor.

(** The state after [lines] were printed. *)
Definition say (s : Run.state) (lines : list string) : Run.state :=
  {| Run.fs := Run.fs s; Run.stdout := Run.stdout s ++ lines |}.

Definition list_header (tar_path : string) : list string :=
  ["Listing contents of: " ++ tar_path; Fmt.rule].

Definition list_summary (tot : totals) : list string :=
  [Fmt.rule;
   "Total files: " ++ Fmt.str_int (file_count tot);
   "Total size: " ++ Fmt.str_int (total_size tot) ++ " bytes"].

Definition list_error (e : Py.exn) : string :=
  if Py.is_ReadError e then "Error reading tar file: " ++ Py.str e
  else "Unexpected error: " ++ Py.str e.

Definition extract_header (tar_path : string) (extract_path : PurePath.t)
  : list string :=
  ["Extracting " ++ tar_path ++ " to " ++ PurePath.to_string extract_path;
   Fmt.rule].

Definition extract_summary (tot : totals) : list string :=
  [Fmt.rule;
   "Extraction complete: " ++ Fmt.str_int (file_count tot) ++ " files, "
   ++ Fmt.str_int (total_size tot) ++ " bytes"].

Definition extract_error (e : Py.exn) : string :=
  if Py.is_ReadError e then "Error extracting tar file: " ++ Py.str e
  else "Unexpected error: " ++ Py.str e.

End Report.

(** ** The running totals, read off the archive *)
Module Totals.
Import SecureTarProcessor.

(** The totals after one more member, when no ceiling is in the way. *)
Definition advance (tot : totals) (m : Tar.TarInfo) : totals :=
  {| file_count := file_count tot + 1;
     total_size :=
       total_size tot + (if Tar.isfile m then Tar.size m else 0) |}.

(** One member passes both ceilings. *)
Definition passes (self : t) (tot : totals) (m : Tar.TarInfo) : Prop :=
  file_count tot + 1 <= max_files self
  /\ (Tar.isfile m = true ->
      total_size tot + Tar.size m <= max_extract_size self).

(** The message of the ceiling that the member after [tot] passes, the count
    first. *)
Definition limit_message (self : t) (tot : totals) : string :=
  if max_files self <? file_count tot + 1
  then "Too many files (>" ++ Fmt.str_int (max_files self) ++ ")"
  else "Archive too large (>" ++ Fmt.str_int (max_extract_size self)
       ++ " bytes)".

(** The totals after the members [ms]. *)
Definition after (tot : totals) (ms : list Tar.TarInfo) : totals :=
  fold_left advance ms tot.

(** No regular file of [ms] declares a negative size. *)
Definition nonneg (ms : list Tar.TarInfo) : Prop :=
  forall m : Tar.TarInfo, In m ms -> Tar.isfile m = true -> 0 <= Tar.size m.

(** From [tot] to [tot'] over the members [ms]: one more per member, so never
    fewer than before, and the declared size of each regular file, so never
    less than before when none of them is negative. *)
Definition grown_by (tot tot' : totals) (ms : list Tar.TarInfo) : Prop :=
  file_count tot' = file_count tot + Z.of_nat (length ms)
  /\ total_size tot' = total_size tot + Spec.file_bytes ms
  /\ file_count tot <= file_count tot'
  /\ (nonneg ms -> total_size tot <= total_size tot').

(** Every member of [ms] passes both ceilings in its turn. *)
Fixpoint passes_all (self : t) (tot : totals) (ms : list Tar.TarInfo) : Prop :=
  match ms with
  | [] => True
  | m :: ms' => passes self tot m /\ passes_all self (advance tot m) ms'
  end.

End Totals.

(** ** A small world to run the program in *)
Module Sample.

(** [/], [/srv] and [/etc]; the process runs in [/srv]. *)
Definition cwd : list string := ["srv"].

Definition tree0 : Fs.tree :=
  <[ ["etc"] := Fs.Dir ]> (<[ ["srv"] := Fs.Dir ]> {[ [] := Fs.Dir ]}).

Definition start : Run.state := {| Run.fs := tree0; Run.stdout := [] |}.

(** The processor with its default ceilings. *)
Definition processor : SecureTarProcessor.t :=
  SecureTarProcessor.__init__ None None.

Definition bytes (s : string) : list Byte.byte := list_byte_of_string s.

Definition regular (name content : string) : Tar.TarInfo :=
  {| Tar.name := name; Tar.type := Tar.RegularFile;
     Tar.size := Z.of_nat (length (bytes content)); Tar.linkname := "";
     Tar.data := bytes content; Tar.damage := None |}.

Definition directory (name : string) : Tar.TarInfo :=
  {| Tar.name := name; Tar.type := Tar.Directory; Tar.size := 0;
     Tar.linkname := ""; Tar.data := []; Tar.damage := None |}.

Definition symlink (name target : string) : Tar.TarInfo :=
  {| Tar.name := name; Tar.type := Tar.SymbolicLink; Tar.size := 0;
     Tar.linkname := target; Tar.data := []; Tar.damage := None |}.

Definition hardlink (name target : string) : Tar.TarInfo :=
  {| Tar.name := name; Tar.type := Tar.HardLink; Tar.size := 0;
     Tar.linkname := target; Tar.data := []; Tar.damage := None |}.

(** The tree once the destination [out] is made, and the state then. *)
Definition tree1 : Fs.tree := <[ ["srv"; "out"] := Fs.Dir ]> tree0.

Definition ready : Run.state := {| Run.fs := tree1; Run.stdout := [] |}.

(** Ceilings of 100 bytes and 2 members. *)
Definition small : SecureTarProcessor.t :=
  SecureTarProcessor.__init__ (Some 100) (Some 2).

(** A regular file whose header declares 101 bytes. *)
Definition big : Tar.TarInfo :=
  {| Tar.name := "big"; Tar.type := Tar.RegularFile; Tar.size := 101;
     Tar.linkname := ""; Tar.data := []; Tar.damage := None |}.

(** A regular file whose headers declare the size [n], which may be
    negative. *)
Definition declaring (name : string) (n : Z) : Tar.TarInfo :=
  {| Tar.name := name; Tar.type := Tar.RegularFile; Tar.size := n;
     Tar.linkname := ""; Tar.data := []; Tar.damage := None |}.

(** A regular file declaring [n] bytes whose data cannot be read: the
    archive ends inside them. *)
Definition cut (name : string) (n : Z) : Tar.TarInfo :=
  {| Tar.name := name; Tar.type := Tar.RegularFile; Tar.size := n;
     Tar.linkname := ""; Tar.data := [];
     Tar.damage := Some (Py.ReadError "unexpected end of data") |}.

End Sample.

(** ** The members of a stream, and how it ends *)
Module Stream.

Fixpoint members (tar : Tar.stream) : list Tar.TarInfo :=
  match tar with
  | Tar.Eof => []
  | Tar.Broken _ => []
  | Tar.Entry m rest => m :: members rest
  end.

(** The exception that ends the stream, if one does. *)
Fixpoint ending (tar : Tar.stream) : option Py.exn :=
  match tar with
  | Tar.Eof => None
  | Tar.Broken e => Some e
  | Tar.Entry _ rest => ending rest
  end.

End Stream.

(** ** [main()], from the parsed command line on

    [argparse] is not modelled: [args] is what [parser.parse_args()] returns,
    and [tar] what [tarfile] delivers for [args.archive]. *)
Module Cli.
Import Run.

Record args := mk {
  archive : string;
  extract : bool;
  output : option string;
  max_size : Z;
  max_files : Z
}.

(** The namespace for a command line that names the archive and nothing
    else: [--extract] is off, [--output] is [None], and the two ceilings have
    the defaults of [add_argument]. *)
Definition only (archive : string) : args :=
  {| archive := archive; extract := false; output := None;
     max_size := 100000000; max_files := 1000 |}.

(** How the process ends: [main] returns, [sys.exit(code)], or an exception
    that nothing catches. *)
Inductive status :=
| Returns
| Exit (code : Z)
| Traceback (e : Py.exn).

(** The kernel wants a directory at the end of a path that ends in a slash or
    in a dot component. *)
Definition wants_directory (path : string) : bool :=
  let c := List.last (PurePath.split path) "" in
  String.eqb c "" || String.eqb c ".".

(** [os.path.exists(path)] for a string: [stat] succeeds. *)
Definition os_path_exists (cwd : list string) (fs : Fs.tree) (path : string)
  : bool :=
  if String.eqb path "" then false
  else
    match Fs.resolve cwd fs (PurePath.of_string path) with
    | inr r =>
        match fs !! r with
        | Some Fs.Dir => true
        | Some (Fs.File _) => negb (wants_directory path)
        | None => false
        end
    | inl _ => false
    end.

(** [main()] after [args = parser.parse_args()] (lines 140-158). *)
Definition main (cwd : list string) (args : args) (tar : Tar.stream)
  : state -> status * state :=
  fun s =>
    if negb (os_path_exists cwd (fs s) (archive args)) then
      match print ("Error: Archive '" ++ archive args ++ "' not found") s with
      | (_, s') => (Exit 1, s')
      end
    else
      let processor :=
        SecureTarProcessor.__init__ (Some (max_size args))
          (Some (max_files args)) in
      let run :=
        if extract args
        then SecureTarProcessor.extract_archive cwd processor (archive args)
               tar (output args)
        else SecureTarProcessor.list_archive processor (archive args) tar in
      match run s with
      | (Return success, s') =>
          if negb success then (Exit 1, s') else (Returns, s')
      | (Raise e, s') => (Traceback e, s')
      end.

End Cli.

(** ** More to say about trees, names and reports *)
Module More.

(** What extraction leaves in the file of a regular-file member: the data
    of the member, or nothing when they cannot be read. *)
Definition left_by (m : Tar.TarInfo) : list Byte.byte :=
  match Tar.read m with
  | inr content => content
  | inl _ => []
  end.

(** From [fs] to [fs'] while members among [ms] were extracted: directories
    stay, regular files stay regular files, and a regular file holds what it
    held or what a regular-file member leaves. *)
Definition evolved (ms : list Tar.TarInfo) (fs fs' : Fs.tree) : Prop :=
  forall p : list string,
    (fs !! p = Some Fs.Dir -> fs' !! p = Some Fs.Dir)
    /\ (forall d : list Byte.byte,
          fs !! p = Some (Fs.File d) ->
          exists d' : list Byte.byte, fs' !! p = Some (Fs.File d'))
    /\ (forall d : list Byte.byte,
          fs' !! p = Some (Fs.File d) ->
          fs !! p = Some (Fs.File d)
          \/ exists m : Tar.TarInfo,
               In m ms /\ Tar.isfile m = true /\ d = left_by m).

(** A second run has come to the tree [B] where the first run, since ended
    with the tree [F], had come to [S]: every node is already as in [F], or is
    a regular file of [S] that holds what it holds in [S]. *)
Definition catching_up (S F B : Fs.tree) : Prop :=
  forall p : list string,
    B !! p = F !! p
    \/ (B !! p = S !! p
        /\ exists d : list Byte.byte, S !! p = Some (Fs.File d)).

(** The node a path leads to whenever its lookup succeeds: its lexical
    normal form from the directory it starts in. *)
Definition lexical_node (cwd : list string) (p : PurePath.t) : list string :=
  Spec.norm_from (if PurePath.absolute p then [] else cwd) (PurePath.parts p).

(** From [fs] to [fs'], outside the directory [D] nothing changed but
    directories that were added. *)
Definition only_dirs_outside (D : list string) (fs fs' : Fs.tree) : Prop :=
  forall p : list string,
    ~ D `prefix_of` p ->
    fs' !! p = fs !! p \/ (fs !! p = None /\ fs' !! p = Some Fs.Dir).

(** The lines [extract_archive] prints for a member it has dealt with. *)
Definition extract_lines (m : Tar.TarInfo) : list string :=
  if Tar.isfile m then ["Extracted: " ++ Tar.name m]
  else if Tar.isdir m then ["Created directory: " ++ Tar.name m]
  else [].

(** No slash in a string. *)
Fixpoint no_slash (s : string) : bool :=
  match s with
  | EmptyString => true
  | String c s' => negb (Ascii.eqb c "/") && no_slash s'
  end.

(** The ceilings, said of the whole archive: not too many members, and, when
    there is a regular file at all, not too many bytes. *)
Definition admitted (self : SecureTarProcessor.t) (ms : list Tar.TarInfo)
  : Prop :=
  (ms = [] \/ Z.of_nat (length ms) <= SecureTarProcessor.max_files self)
  /\ (existsb Tar.isfile ms = true ->
      Spec.file_bytes ms <= SecureTarProcessor.max_extract_size self).

End More.

(** * Facts about the file system *)
Module FsFacts.
Import Py Fs Inv.

Lemma adds_dirs_refl (fs : tree) : adds_dirs fs fs.
Proof. intros p. by left. Qed.

Lemma adds_dirs_trans (fs1 fs2 fs3 : tree) :
  adds_dirs fs1 fs2 -> adds_dirs fs2 fs3 -> adds_dirs fs1 fs3.
Proof.
  intros H12 H23 p. destruct (H12 p) as [E|[E1 E2]], (H23 p) as [F|[F1 F2]].
  - left. congruence.
  - right. split; congruence.
  - right. split; congruence.
  - congruence.
Qed.

Lemma adds_dirs_keeps (fs fs' : tree) : adds_dirs fs fs' -> keeps_dirs fs fs'.
Proof. intros H p Hp. destruct (H p) as [E|[E _]]; congruence. Qed.

Lemma keeps_dirs_refl (fs : tree) : keeps_dirs fs fs.
Proof. by intros p. Qed.

Lemma keeps_dirs_trans (fs1 fs2 fs3 : tree) :
  keeps_dirs fs1 fs2 -> keeps_dirs fs2 fs3 -> keeps_dirs fs1 fs3.
Proof. intros H12 H23 p Hp. by apply H23, H12. Qed.

Lemma insert_dir_adds (fs : tree) (r : list string) :
  fs !! r = None -> adds_dirs fs (<[r := Dir]> fs).
Proof.
  intros Hr p. destruct (decide (r = p)) as [->|Hne].
  - right. by rewrite lookup_insert_eq.
  - left. by rewrite lookup_insert_ne.
Qed.

Lemma insert_file_keeps (fs : tree) (r : list string) (d : list Byte.byte) :
  fs !! r <> Some Dir -> keeps_dirs fs (<[r := File d]> fs).
Proof.
  intros Hr p Hp. destruct (decide (r = p)) as [->|Hne]; [done|].
  by rewrite lookup_insert_ne.
Qed.

(** Path lookup only asks for directories, so it survives whatever keeps
    them. *)
Lemma walk_keeps_dirs (fs fs' : tree) (comps cur r : list string) :
  keeps_dirs fs fs' -> walk fs cur comps = inr r -> walk fs' cur comps = inr r.
Proof.
  intros Hk. revert cur. induction comps as [|c cs IH]; intros cur; simpl.
  - done.
  - destruct (fs !! cur) as [[d|]|] eqn:E; try discriminate.
    rewrite (Hk _ E). apply IH.
Qed.

Section WithCwd.
Variable cwd : list string.

Lemma is_dir_keeps_dirs (fs fs' : tree) (p : PurePath.t) :
  keeps_dirs fs fs' -> is_dir cwd p fs = true -> is_dir cwd p fs' = true.
Proof.
  intros Hk. unfold is_dir, resolve.
  destruct (walk fs _ _) as [e|r] eqn:W; [discriminate|].
  rewrite (walk_keeps_dirs _ _ _ _ _ Hk W).
  destruct (fs !! r) as [[d|]|] eqn:E; try discriminate.
  by rewrite (Hk _ E).
Qed.

Lemma os_mkdir_adds (p : PurePath.t) (fs fs' : tree) :
  os_mkdir cwd p fs = inr fs' -> adds_dirs fs fs'.
Proof.
  unfold os_mkdir. destruct (resolve cwd fs p) as [e|r]; [discriminate|].
  destruct (fs !! r) eqn:E; [discriminate|].
  intros [= <-]. by apply insert_dir_adds.
Qed.

Lemma os_mkdir_is_dir (p : PurePath.t) (fs fs' : tree) :
  os_mkdir cwd p fs = inr fs' -> is_dir cwd p fs' = true.
Proof.
  intros H. pose proof (os_mkdir_adds _ _ _ H) as Ha. revert H.
  unfold os_mkdir, is_dir.
  destruct (resolve cwd fs p) as [e|r] eqn:R; [discriminate|].
  destruct (fs !! r) eqn:E; [discriminate|]. intros [= <-].
  unfold resolve in *.
  rewrite (walk_keeps_dirs _ _ _ _ _ (adds_dirs_keeps _ _ Ha) R).
  by rewrite lookup_insert_eq.
Qed.

Lemma mkdir_once_adds (eo : bool) (p : PurePath.t) (fs fs' : tree) :
  mkdir_once cwd eo p fs = inr fs' -> adds_dirs fs fs'.
Proof.
  unfold mkdir_once. destruct (os_mkdir cwd p fs) as [e|fs1] eqn:M.
  - destruct e; try discriminate;
      (destruct (eo && is_dir cwd p fs); [|discriminate]);
      intros [= <-]; apply adds_dirs_refl.
  - intros [= <-]. by eapply os_mkdir_adds.
Qed.

Lemma mkdir_once_is_dir (p : PurePath.t) (fs fs' : tree) :
  mkdir_once cwd true p fs = inr fs' -> is_dir cwd p fs' = true.
Proof.
  unfold mkdir_once. destruct (os_mkdir cwd p fs) as [e|fs1] eqn:M.
  - destruct e; try discriminate;
      (destruct (is_dir cwd p fs) eqn:D; [|discriminate]);
      by intros [= <-].
  - intros [= <-]. by eapply os_mkdir_is_dir.
Qed.

Lemma mkdir_parents_adds (ab : PurePath.root) (rparts : list string) (eo : bool)
  (fs fs' : tree) :
  mkdir_parents cwd ab rparts eo fs = inr fs' -> adds_dirs fs fs'.
Proof.
  revert eo fs fs'. induction rparts as [|x rp IH]; intros eo fs fs'; simpl.
  - destruct (os_mkdir cwd _ fs) as [e|fs1] eqn:M.
    + destruct e; try discriminate;
        (destruct (eo && is_dir cwd _ fs); [|discriminate]);
        intros [= <-]; apply adds_dirs_refl.
    + intros [= <-]. by eapply os_mkdir_adds.
  - destruct (os_mkdir cwd _ fs) as [e|fs1] eqn:M.
    + destruct e; try discriminate.
      * destruct (mkdir_parents cwd ab rp true fs) as [e1|fs1] eqn:P;
          [discriminate|].
        intros H.
        eapply adds_dirs_trans; [by eapply IH|by eapply mkdir_once_adds].
      * destruct (eo && is_dir cwd _ fs); [|discriminate].
        intros [= <-]; apply adds_dirs_refl.
      * destruct (eo && is_dir cwd _ fs); [|discriminate].
        intros [= <-]; apply adds_dirs_refl.
      * destruct (eo && is_dir cwd _ fs); [|discriminate].
        intros [= <-]; apply adds_dirs_refl.
    + intros [= <-]. by eapply os_mkdir_adds.
Qed.

Lemma mkdir_parents_is_dir (ab : PurePath.root) (rparts : list string)
  (fs fs' : tree) :
  mkdir_parents cwd ab rparts true fs = inr fs' ->
  is_dir cwd (PurePath.mk ab (rev rparts)) fs' = true.
Proof.
  destruct rparts as [|x rp]; simpl.
  - destruct (os_mkdir cwd _ fs) as [e|fs1] eqn:M.
    + destruct e; try discriminate;
        (destruct (is_dir cwd _ fs) eqn:D; [|discriminate]);
        by intros [= <-].
    + intros [= <-]. by apply os_mkdir_is_dir in M.
  - destruct (os_mkdir cwd _ fs) as [e|fs1] eqn:M.
    + destruct e; try discriminate.
      * destruct (mkdir_parents cwd ab rp true fs) as [e1|fs1] eqn:P;
          [discriminate|].
        apply mkdir_once_is_dir.
      * destruct (is_dir cwd _ fs) eqn:D; [|discriminate]. by intros [= <-].
      * destruct (is_dir cwd _ fs) eqn:D; [|discriminate]. by intros [= <-].
      * destruct (is_dir cwd _ fs) eqn:D; [|discriminate]. by intros [= <-].
    + intros [= <-]. by apply os_mkdir_is_dir in M.
Qed.

Lemma mkdir_adds (parents eo : bool) (p : PurePath.t) (fs fs' : tree) :
  mkdir cwd parents eo p fs = inr fs' -> adds_dirs fs fs'.
Proof.
  unfold mkdir. destruct parents.
  - apply mkdir_parents_adds.
  - apply mkdir_once_adds.
Qed.

Lemma mkdir_is_dir (parents : bool) (p : PurePath.t) (fs fs' : tree) :
  mkdir cwd parents true p fs = inr fs' -> is_dir cwd p fs' = true.
Proof.
  unfold mkdir. destruct parents.
  - intros H. apply mkdir_parents_is_dir in H.
    rewrite rev_involutive in H. by destruct p.
  - apply mkdir_once_is_dir.
Qed.

(** What [open(p, 'wb')] has done when it returns. *)
Lemma open_wb_inv (p : PurePath.t) (fs fs' : tree) (r : list string) :
  open_wb cwd p fs = inr (r, fs') ->
  resolve cwd fs p = inr r /\ fs !! r <> Some Dir
  /\ fs' = <[r := File []]> fs.
Proof.
  unfold open_wb. destruct (resolve cwd fs p) as [e|r0]; [discriminate|].
  destruct (fs !! r0) as [[d0|]|] eqn:E; try discriminate;
    intros [= <- <-]; (split; [done|split; [congruence|done]]).
Qed.

Lemma open_wb_keeps (p : PurePath.t) (fs fs' : tree) (r : list string) :
  open_wb cwd p fs = inr (r, fs') -> keeps_dirs fs fs'.
Proof.
  intros (_ & Hr & ->)%open_wb_inv. by apply insert_file_keeps.
Qed.

(** Opening a file, then writing to it, leaves the file filled and the other
    nodes alone. *)
Lemma write_open (r : list string) (d : list Byte.byte) (fs : tree) :
  write r d (<[r := File []]> fs) = <[r := File d]> fs.
Proof. unfold write. apply insert_insert_eq. Qed.

End WithCwd.
End FsFacts.

(** * Facts about path lookup *)
Module PathFacts.
Import Py Fs Inv FsFacts.
Local Open Scope list_scope.

Lemma walk_app (fs : tree) (a b cur : list string) :
  walk fs cur (a ++ b)
  = match walk fs cur a with
    | inr c => walk fs c b
    | inl e => inl e
    end.
Proof.
  revert cur. induction a as [|x a IH]; intros cur; simpl; [done|].
  destruct (fs !! cur) as [[d|]|]; auto.
Qed.

Lemma norm_from_app (st a b : list string) :
  Spec.norm_from st (a ++ b) = Spec.norm_from (Spec.norm_from st a) b.
Proof. unfold Spec.norm_from. apply fold_left_app. Qed.

(** A lookup that succeeds ends at the normal form. *)
Lemma walk_norm (fs : tree) (q cur c : list string) :
  walk fs cur q = inr c -> c = Spec.norm_from cur q.
Proof.
  revert cur. induction q as [|x q IH]; intros cur; simpl.
  - by intros [= <-].
  - destruct (fs !! cur) as [[d|]|]; try discriminate. apply IH.
Qed.

(** A lookup that fails on a regular file found it at the normal form of one
    of its proper prefixes. *)
Lemma walk_ENOTDIR (fs : tree) (q cur : list string) :
  walk fs cur q = inl ENOTDIR ->
  exists (k : nat) (d : list Byte.byte),
    (k < length q)%nat
    /\ fs !! Spec.norm_from cur (take k q) = Some (File d).
Proof.
  revert cur. induction q as [|x q IH]; intros cur; simpl; [discriminate|].
  destruct (fs !! cur) as [[d|]|] eqn:E; try discriminate.
  - intros _. exists 0%nat, d. split; [lia|done].
  - intros H. destruct (IH _ H) as (k & d & Hk & Hd).
    exists (S k), d. split; [lia|done].
Qed.

Lemma walk_errno (fs : tree) (comps cur : list string) (e : errno) :
  walk fs cur comps = inl e -> e = ENOENT \/ e = ENOTDIR.
Proof.
  revert cur. induction comps as [|c cs IH]; intros cur; simpl; [done|].
  destruct (fs !! cur) as [[d|]|]; [intros [= <-]; by right|apply IH|].
  intros [= <-]; by left.
Qed.

Lemma os_mkdir_errno (cwd : list string) (p : PurePath.t) (fs : tree)
  (e : errno) :
  os_mkdir cwd p fs = inl e -> e <> EISDIR.
Proof.
  unfold os_mkdir, resolve.
  assert (W : forall comps cur, walk fs cur comps <> inl EISDIR).
  { induction comps as [|c cs IH]; intros cur; simpl; [done|].
    destruct (fs !! cur) as [[d|]|]; try done. }
  destruct (walk fs _ _) as [e'|r] eqn:Hw.
  - intros [= <-] ->. by eapply W.
  - destruct (fs !! r); [|done]. by intros [= <-].
Qed.

End PathFacts.

(** * Facts about the running totals *)
Module TotalsFacts.
Import Run SecureTarProcessor Totals.

Lemma check_limits_passes (self : t) (tot : totals) (m : Tar.TarInfo) :
  passes self tot m -> check_limits self tot m = Return (advance tot m).
Proof.
  intros [Hc Hs]. unfold check_limits, advance.
  destruct (Z.ltb_spec (max_files self) (file_count tot + 1)); [lia|].
  destruct (Tar.isfile m); [|by rewrite Z.add_0_r].
  destruct (Z.ltb_spec (max_extract_size self)
              (total_size tot + Tar.size m)); [|done].
  specialize (Hs eq_refl). lia.
Qed.

Lemma check_limits_Return (self : t) (tot tot' : totals) (m : Tar.TarInfo) :
  check_limits self tot m = Return tot' ->
  passes self tot m /\ tot' = advance tot m.
Proof.
  unfold check_limits, advance, passes.
  destruct (Z.ltb_spec (max_files self) (file_count tot + 1)); [discriminate|].
  destruct (Tar.isfile m).
  - destruct (Z.ltb_spec (max_extract_size self)
                (total_size tot + Tar.size m)); [discriminate|].
    intros [= <-]. auto.
  - intros [= <-]. rewrite Z.add_0_r. split; [split; [done|discriminate]|done].
Qed.

Lemma check_limits_fails (self : t) (tot : totals) (m : Tar.TarInfo) :
  ~ passes self tot m ->
  check_limits self tot m = Raise (Py.ReadError (limit_message self tot)).
Proof.
  intros Hn. unfold check_limits, limit_message, passes in *.
  destruct (Z.ltb_spec (max_files self) (file_count tot + 1)); [done|].
  destruct (Tar.isfile m).
  - destruct (Z.ltb_spec (max_extract_size self)
                (total_size tot + Tar.size m)); [done|].
    exfalso. apply Hn. auto.
  - exfalso. apply Hn. split; [done|discriminate].
Qed.

Lemma after_app (tot : totals) (ms1 ms2 : list Tar.TarInfo) :
  after tot (ms1 ++ ms2) = after (after tot ms1) ms2.
Proof. unfold after. apply fold_left_app. Qed.

Lemma after_totals (ms : list Tar.TarInfo) (tot : totals) :
  file_count (after tot ms) = file_count tot + Z.of_nat (length ms)
  /\ total_size (after tot ms) = total_size tot + Spec.file_bytes ms.
Proof.
  revert tot. induction ms as [|m ms IH]; intros tot; simpl.
  - split; lia.
  - destruct (IH (advance tot m)) as [-> ->]. unfold advance; simpl.
    split; lia.
Qed.

Lemma nonneg_cons (m : Tar.TarInfo) (ms : list Tar.TarInfo) :
  nonneg (m :: ms) <->
  (Tar.isfile m = true -> 0 <= Tar.size m) /\ nonneg ms.
Proof.
  unfold nonneg. split.
  - intros H. split; [apply H; by left|]. intros m' Hm. apply H. by right.
  - intros [H1 H2] m' [<-|Hm]; [done|by apply H2].
Qed.

(** Declared sizes that are not negative add up to a sum that is not
    negative. *)
Lemma file_bytes_nonneg (ms : list Tar.TarInfo) :
  nonneg ms -> 0 <= Spec.file_bytes ms.
Proof.
  induction ms as [|m ms IH]; simpl; [lia|].
  intros [H1 H2]%nonneg_cons. specialize (IH H2).
  destruct (Tar.isfile m); [specialize (H1 eq_refl)|]; lia.
Qed.

End TotalsFacts.

(** * Facts about the two walks *)
Module WalkFacts.
Import Run SecureTarProcessor Totals TotalsFacts Inv FsFacts.

Ltac run_unfold :=
  unfold bind, ret, raise, pure, print, sys, try_except in *.

Ltac say_norm :=
  unfold Report.say, Report.list_header, Report.list_summary,
    Report.list_error, Report.extract_header, Report.extract_summary,
    Report.extract_error;
  cbn [fs stdout Py.is_ReadError Py.str];
  rewrite <- ?app_assoc; cbn [app]; try reflexivity.

Lemma state_eta (s : state) : {| fs := fs s; stdout := stdout s |} = s.
Proof. by destruct s. Qed.

(** When no declared size is negative, the running total never exceeds the
    final sum: an archive within the limits as a whole passes the ceilings
    at every member. *)
Lemma within_limits_passes_all (self : t) (ms : list Tar.TarInfo)
  (tot : totals) :
  nonneg ms ->
  file_count tot + Z.of_nat (length ms) <= max_files self ->
  total_size tot + Spec.file_bytes ms <= max_extract_size self ->
  passes_all self tot ms.
Proof.
  revert tot. induction ms as [|m ms IH]; intros tot Hn Hc Hs; simpl in *;
    [done|].
  apply nonneg_cons in Hn as [Hm Hn].
  pose proof (file_bytes_nonneg ms Hn) as Hnn. split.
  - split; [lia|]. intros Hf. rewrite Hf in Hs. lia.
  - apply IH; [done| |]; unfold advance; simpl; lia.
Qed.

Lemma passes_all_app (self : t) (ms1 ms2 : list Tar.TarInfo) (tot : totals) :
  passes_all self tot (ms1 ++ ms2) <->
  passes_all self tot ms1 /\ passes_all self (after tot ms1) ms2.
Proof.
  revert tot. induction ms1 as [|m ms IH]; intros tot; simpl.
  - tauto.
  - rewrite IH. unfold after; simpl. tauto.
Qed.

(** While the ceilings hold, [list_archive]'s loop prints one line per
    member and touches nothing else. *)
Lemma list_loop_feed (self : t) (ms : list Tar.TarInfo) (rest : Tar.stream)
  (tot : totals) (s : state) :
  passes_all self tot ms ->
  list_loop self (Tar.feed ms rest) tot s
  = list_loop self rest (after tot ms)
      {| fs := fs s; stdout := stdout s ++ map member_line ms |}.
Proof.
  revert tot s. induction ms as [|m ms IH]; intros tot s Hp; simpl in *.
  - by rewrite app_nil_r, state_eta.
  - destruct Hp as [Hm Hp]. unfold bind at 1, pure at 1.
    rewrite (check_limits_passes _ _ _ Hm). unfold bind at 1, print at 1.
    rewrite (IH _ _ Hp). simpl. by rewrite <- app_assoc.
Qed.

(** The loop of [list_archive] leaves the tree alone, and what it returns and
    prints does not depend on the state it starts from. *)
Lemma list_loop_report (self : t) (tar : Tar.stream) (tot : totals) :
  exists (o : outcome totals) (lines : list string),
    forall s : state,
      list_loop self tar tot s
      = (o, {| fs := fs s; stdout := stdout s ++ lines |}).
Proof.
  revert tot. induction tar as [|e|m rest IH]; intros tot; simpl.
  - exists (Return tot), []. intros s. unfold ret.
    by rewrite app_nil_r, state_eta.
  - exists (Raise e), []. intros s. unfold raise.
    by rewrite app_nil_r, state_eta.
  - unfold bind, pure, print.
    destruct (check_limits self tot m) as [tot'|e].
    + destruct (IH tot') as (o & lines & H).
      exists o, (member_line m :: lines). intros s. rewrite H. simpl.
      by rewrite <- app_assoc.
    + exists (Raise e), []. intros s. by rewrite app_nil_r, state_eta.
Qed.

Lemma say_say (s : state) (l1 l2 : list string) :
  Report.say (Report.say s l1) l2 = Report.say s (l1 ++ l2).
Proof. unfold Report.say; simpl. by rewrite <- app_assoc. Qed.

(** [list_archive] by the outcome of its loop. *)
Lemma list_archive_run (self : t) (tar_path : string) (tar : Tar.stream)
  (s : state) :
  list_archive self tar_path tar s
  = match list_loop self tar zero
            (Report.say s (Report.list_header tar_path)) with
    | (Return tot, s1) => (Return true, Report.say s1 (Report.list_summary tot))
    | (Raise e, s1) => (Return false, Report.say s1 [Report.list_error e])
    end.
Proof.
  unfold list_archive. run_unfold. unfold Report.say, Report.list_header; simpl.
  rewrite <- app_assoc. simpl.
  destruct (list_loop self tar zero _) as [[tot|e] s1]; simpl.
  - unfold Report.list_summary. by rewrite <- !app_assoc.
  - unfold Report.list_error. by destruct (Py.is_ReadError e).
Qed.

Section WithCwd.
Variable cwd : list string.

(** [extract_member] by the kind of the member and the outcome of its
    calls. *)
Lemma extract_member_run (root : PurePath.t) (m : Tar.TarInfo) (s : state) :
  let safe_path := PurePath.joinpath root (Tar.name m) in
  extract_member cwd root m s
  = match Fs.mkdir cwd true true (PurePath.parent safe_path) (fs s) with
    | inl e => (Raise e, s)
    | inr A =>
        if Tar.isfile m then
          match Fs.open_wb cwd safe_path A with
          | inl e => (Raise e, {| fs := A; stdout := stdout s |})
          | inr (dst, A0) =>
              match Tar.read m with
              | inl e => (Raise e, {| fs := A0; stdout := stdout s |})
              | inr content =>
                  (Return tt,
                   {| fs := Fs.write dst content A0;
                      stdout := stdout s ++ More.extract_lines m |})
              end
          end
        else if Tar.isdir m then
          match Fs.mkdir cwd false true safe_path A with
          | inl e => (Raise e, {| fs := A; stdout := stdout s |})
          | inr A1 =>
              (Return tt,
               {| fs := A1; stdout := stdout s ++ More.extract_lines m |})
          end
        else
          (Return tt,
           {| fs := A; stdout := stdout s ++ More.extract_lines m |})
    end.
Proof.
  cbv zeta. unfold extract_member, More.extract_lines. cbv zeta.
  unfold bind, ret, print, sys, sys_get, sys_do, lift.
  destruct (Fs.mkdir cwd true true _ (fs s)) as [e|A]; [done|].
  destruct (Tar.isfile m); cbn [fs stdout].
  - destruct (Fs.open_wb cwd _ A) as [e|[dst A0]]; [done|].
    cbn [fs stdout]. by destruct (Tar.read m).
  - destruct (Tar.isdir m); cbn [fs stdout].
    + by destruct (Fs.mkdir cwd false true _ A).
    + by rewrite app_nil_r.
Qed.

(** Whatever happens to a member, directories stay. *)
Lemma extract_member_keeps (root : PurePath.t) (m : Tar.TarInfo) (s : state) :
  keeps_dirs (fs s) (fs (snd (extract_member cwd root m s))).
Proof.
  rewrite extract_member_run. cbv zeta.
  destruct (Fs.mkdir cwd true true _ (fs s)) as [e|A] eqn:M;
    cbn [fs snd]; [apply keeps_dirs_refl|].
  apply mkdir_adds, adds_dirs_keeps in M.
  destruct (Tar.isfile m).
  - destruct (Fs.open_wb cwd _ A) as [e|[dst A0]] eqn:W; cbn [fs snd];
      [done|].
    pose proof (open_wb_keeps _ _ _ _ _ W) as K.
    apply open_wb_inv in W as (_ & Hr & ->).
    destruct (Tar.read m) as [e|content]; cbn [fs snd].
    + by eapply keeps_dirs_trans.
    + rewrite write_open. eapply keeps_dirs_trans; [done|].
      by apply insert_file_keeps.
  - destruct (Tar.isdir m); cbn [fs snd]; [|done].
    destruct (Fs.mkdir cwd false true _ A) as [e|A1] eqn:D; cbn [fs snd];
      [done|].
    eapply keeps_dirs_trans; [done|]. by eapply adds_dirs_keeps, mkdir_adds.
Qed.

Lemma extract_loop_keeps (self : t) (root : PurePath.t) (tar : Tar.stream)
  (tot : totals) (s : state) :
  keeps_dirs (fs s) (fs (snd (extract_loop cwd self root tar tot s))).
Proof.
  revert tot s. induction tar as [|e|m rest IH]; intros tot s; simpl;
    try apply keeps_dirs_refl.
  unfold bind at 1, pure at 1.
  destruct (check_limits self tot m) as [tot'|e]; simpl;
    [|apply keeps_dirs_refl].
  unfold bind at 1.
  pose proof (extract_member_keeps root m s) as Hm.
  destruct (extract_member cwd root m s) as [[[]|e] s1]; simpl in *; [|done].
  eapply keeps_dirs_trans; [done|apply IH].
Qed.

(** What was printed stays: the walk only adds lines. *)
Lemma extract_member_prints (root : PurePath.t) (m : Tar.TarInfo)
  (s : state) :
  exists lines : list string,
    stdout (snd (extract_member cwd root m s)) = (stdout s ++ lines)%list.
Proof.
  rewrite extract_member_run. cbv zeta.
  assert (N : stdout s = (stdout s ++ [])%list) by by rewrite app_nil_r.
  destruct (Fs.mkdir cwd true true _ (fs s)) as [e|A]; [by exists []|].
  destruct (Tar.isfile m).
  - destruct (Fs.open_wb cwd _ A) as [e|[dst A0]]; [by exists []|].
    destruct (Tar.read m) as [e|content]; [by exists []|by eexists].
  - destruct (Tar.isdir m); [|by eexists].
    destruct (Fs.mkdir cwd false true _ A) as [e|A1]; [by exists []|].
    by eexists.
Qed.

Lemma extract_loop_prints (self : t) (root : PurePath.t) (tar : Tar.stream)
  (tot : totals) (s : state) :
  exists lines : list string,
    stdout (snd (extract_loop cwd self root tar tot s))
    = (stdout s ++ lines)%list.
Proof.
  revert tot s. induction tar as [|e|m rest IH]; intros tot s; simpl;
    try (exists []; by rewrite app_nil_r).
  unfold bind at 1, pure at 1.
  destruct (check_limits self tot m) as [tot'|e]; simpl;
    [|exists []; by rewrite app_nil_r].
  unfold bind at 1.
  destruct (extract_member_prints root m s) as [l1 H1].
  destruct (extract_member cwd root m s) as [[[]|e] s1]; simpl in *;
    [|by exists l1].
  destruct (IH tot' s1) as [l2 H2]. exists (l1 ++ l2)%list.
  by rewrite H2, H1, <- app_assoc.
Qed.

(** A walk that completes over [ms] has passed the ceilings at every member
    and ends with the totals of [ms]. *)
Lemma extract_loop_archive_Return (self : t) (root : PurePath.t)
  (ms : list Tar.TarInfo) (tot tot1 : totals) (s s1 : state) :
  extract_loop cwd self root (Tar.archive ms) tot s = (Return tot1, s1) ->
  passes_all self tot ms /\ tot1 = after tot ms.
Proof.
  revert tot s. induction ms as [|m ms IH]; intros tot s; simpl.
  - unfold ret. intros [= <- <-]. done.
  - unfold bind at 1, pure at 1.
    destruct (check_limits self tot m) as [tot'|e] eqn:C; [|discriminate].
    apply check_limits_Return in C as [Hp ->]. unfold bind at 1.
    destruct (extract_member cwd root m s) as [[[]|e] s']; [|discriminate].
    intros H. apply IH in H as [H1 H2]. done.
Qed.

(** What is read after [ms] starts from where the walk over [ms] alone
    ended. *)
Lemma extract_loop_feed (self : t) (root : PurePath.t)
  (ms : list Tar.TarInfo) (rest : Tar.stream) (tot tot1 : totals)
  (s s1 : state) :
  extract_loop cwd self root (Tar.archive ms) tot s = (Return tot1, s1) ->
  extract_loop cwd self root (Tar.feed ms rest) tot s
  = extract_loop cwd self root rest tot1 s1.
Proof.
  revert tot s. induction ms as [|m ms IH]; intros tot s; simpl.
  - unfold ret. by intros [= <- <-].
  - unfold bind at 1 3, pure at 1 2.
    destruct (check_limits self tot m) as [tot'|e] eqn:C; [|discriminate].
    unfold bind at 1 2.
    destruct (extract_member cwd root m s) as [[[]|e] s']; [|discriminate].
    apply IH.
Qed.

(** [extract_archive] by the outcome of the first [mkdir] and of its loop. *)
Lemma extract_archive_run (self : t) (tar_path : string) (tar : Tar.stream)
  (extract_to : option string) (s : state) :
  extract_archive cwd self tar_path tar extract_to s
  = let root := extract_path_of tar_path extract_to in
    match Fs.mkdir cwd false true root (fs s) with
    | inl e => (Raise e, s)
    | inr fs1 =>
        match extract_loop cwd self root tar zero
                (Report.say {| fs := fs1; stdout := stdout s |}
                   (Report.extract_header tar_path root)) with
        | (Return tot, s1) =>
            (Return true, Report.say s1 (Report.extract_summary tot))
        | (Raise e, s1) =>
            (Return false, Report.say s1 [Report.extract_error e])
        end
    end.
Proof.
  unfold extract_archive. cbv zeta. run_unfold.
  destruct (Fs.mkdir cwd false true _ (fs s)) as [e|fs1]; [done|].
  unfold Report.say, Report.extract_header; cbn [fs stdout].
  rewrite <- app_assoc. cbn [app].
  destruct (extract_loop cwd self _ tar zero _) as [[tot|e] s1];
    cbn [fs stdout].
  - unfold Report.extract_summary. by rewrite <- !app_assoc.
  - unfold Report.extract_error. by destruct (Py.is_ReadError e).
Qed.

End WithCwd.
End WalkFacts.

(** * Making directories and writing files under the destination *)
Module PlanFacts.
Import Py Fs Inv FsFacts PathFacts Plan.
Local Open Scope list_scope.

Lemma on_way_prefix (D q x p : list string) :
  on_way D q p -> on_way D (q ++ x) p.
Proof.
  intros (k & Hk & ->). exists k. split.
  - rewrite length_app. lia.
  - by rewrite take_app_le.
Qed.

Lemma on_way_end (D q : list string) :
  on_way D q (Spec.norm_from D q).
Proof. exists (length q). split; [lia|]. by rewrite firstn_all. Qed.

Lemma clear_way_prefix (fs : tree) (D q x : list string) :
  clear_way fs D (q ++ x) -> clear_way fs D q.
Proof. intros H p d Hp. by apply H, on_way_prefix. Qed.

Lemma added_within_refl (fs : tree) (D q : list string) :
  added_within fs fs D q.
Proof. intros p. by left. Qed.

Lemma added_within_adds (fs fs' : tree) (D q : list string) :
  added_within fs fs' D q -> adds_dirs fs fs'.
Proof. intros H p. destruct (H p) as [E|(E1 & E2 & _)]; [by left|by right]. Qed.

Lemma added_within_prefix (fs fs' : tree) (D q x : list string) :
  added_within fs fs' D q -> added_within fs fs' D (q ++ x).
Proof.
  intros H p. destruct (H p) as [E|(E1 & E2 & W)]; [by left|].
  right. split; [done|]. split; [done|]. by apply on_way_prefix.
Qed.

Lemma added_within_insert (fs fs' : tree) (D q : list string) :
  added_within fs fs' D q ->
  fs' !! Spec.norm_from D q = None ->
  added_within fs (<[Spec.norm_from D q := Dir]> fs') D q.
Proof.
  intros H Hn p. destruct (decide (Spec.norm_from D q = p)) as [<-|Hne].
  - right. rewrite lookup_insert_eq. split; [|split; [done|apply on_way_end]].
    destruct (H (Spec.norm_from D q)) as [E|(E1 & E2 & _)]; congruence.
  - rewrite lookup_insert_ne by done. apply H.
Qed.

Lemma needs_dir_needed (D : list string) (m : Tar.TarInfo)
  (p : list string) :
  needs_dir D m p -> p ∈ needed_dirs D m.
Proof.
  unfold needed_dirs. intros [->|(k & Hk & ->)]; [by left|]. right.
  apply list_elem_of_In, in_or_app. destruct Hk as [Hk|[Hd ->]].
  - left. apply in_map_iff. exists k. split; [done|]. apply in_seq. lia.
  - right. rewrite Hd, firstn_all. by left.
Qed.

Lemma compatibleb_sound (D : list string) (ms : list Tar.TarInfo) :
  compatibleb D ms = true -> compatible D ms.
Proof.
  unfold compatibleb. rewrite forallb_forall. intros H m m' Hm Hm' Hf N.
  specialize (H m Hm). rewrite Hf in H. simpl in H.
  rewrite forallb_forall in H. specialize (H m' Hm').
  apply negb_true_iff, bool_decide_eq_false in H.
  by apply H, needs_dir_needed.
Qed.

Lemma fitsb_sound (fs : tree) (D : list string) (ms : list Tar.TarInfo) :
  fitsb fs D ms = true -> fits fs D ms.
Proof.
  unfold fitsb. rewrite forallb_forall. intros H. split.
  - intros m p d Hm N E. apply H, andb_true_iff in Hm as [Hm _].
    rewrite forallb_forall in Hm.
    apply needs_dir_needed, list_elem_of_In, Hm in N.
    by rewrite E in N.
  - intros m Hm Hf E. apply H, andb_true_iff in Hm as [_ Hm].
    by rewrite Hf, E in Hm.
Qed.

Section WithCwd.
Variable cwd : list string.

Lemma mkdir_parents_unfold (ab : PurePath.root) (rparts : list string)
  (eo : bool)
  (fs : tree) :
  mkdir_parents cwd ab rparts eo fs
  = let self := PurePath.mk ab (rev rparts) in
    match os_mkdir cwd self fs with
    | inr fs' => inr fs'
    | inl ENOENT =>
        match rparts with
        | [] => inl (OSError ENOENT (PurePath.to_string self))
        | _ :: rparent =>
            match mkdir_parents cwd ab rparent true fs with
            | inl e => inl e
            | inr fs1 => mkdir_once cwd eo self fs1
            end
        end
    | inl e =>
        if eo && is_dir cwd self fs then inr fs
        else inl (OSError e (PurePath.to_string self))
    end.
Proof. by destruct rparts. Qed.

(** A path that leads to a directory: [mkdir] says it exists, [is_dir]
    agrees. *)
Lemma os_mkdir_exists (p : PurePath.t) (fs : tree) (r : list string) :
  resolve cwd fs p = inr r -> fs !! r = Some Dir ->
  os_mkdir cwd p fs = inl EEXIST /\ is_dir cwd p fs = true.
Proof. intros R E. unfold os_mkdir, is_dir. by rewrite R, E. Qed.

Lemma mkdir_parents_exists (ab : PurePath.root) (parts : list string)
  (fs : tree)
  (r : list string) :
  resolve cwd fs (PurePath.mk ab parts) = inr r -> fs !! r = Some Dir ->
  mkdir_parents cwd ab (rev parts) true fs = inr fs.
Proof.
  intros R E. rewrite mkdir_parents_unfold. cbv zeta.
  rewrite rev_involutive.
  destruct (os_mkdir_exists _ _ _ R E) as [M I]. by rewrite M, I.
Qed.

(** Lookup of a path below [root], once [root] leads to [D]. *)
Lemma resolve_under (fs : tree) (ab : PurePath.root)
  (rootparts D q : list string) :
  resolve cwd fs (PurePath.mk ab rootparts) = inr D ->
  resolve cwd fs (PurePath.mk ab (rootparts ++ q)) = walk fs D q.
Proof.
  unfold resolve, PurePath.absolute; cbn [PurePath.anchor PurePath.parts].
  intros R. by rewrite walk_app, R.
Qed.

(** [mkdir(parents=True, exist_ok=True)] of a path below the directory [D],
    when no regular file stands on its way: it succeeds, and it adds nothing
    but directories on that way. *)
Lemma mkdir_parents_under (ab : PurePath.root) (rootparts D : list string)
  (q : list string) (fs : tree) :
  resolve cwd fs (PurePath.mk ab rootparts) = inr D ->
  fs !! D = Some Dir ->
  clear_way fs D q ->
  exists fs1 : tree,
    mkdir_parents cwd ab (rev (rootparts ++ q)) true fs = inr fs1
    /\ added_within fs fs1 D q.
Proof.
  intros R HD. induction q as [|x q IH] using rev_ind; intros Hw.
  - exists fs. split; [|apply added_within_refl].
    rewrite app_nil_r. by eapply mkdir_parents_exists.
  - specialize (IH (clear_way_prefix _ _ _ _ Hw)).
    rewrite app_assoc, rev_unit, mkdir_parents_unfold. cbv zeta.
    change (rev (x :: rev (rootparts ++ q)))
      with (rev (rev (rootparts ++ q)) ++ [x]).
    rewrite rev_involutive, <- app_assoc.
    set (P := PurePath.mk ab (rootparts ++ q ++ [x])).
    set (r := Spec.norm_from D (q ++ [x])).
    assert (RP : forall fs' : tree,
               keeps_dirs fs fs' -> resolve cwd fs' P = walk fs' D (q ++ [x])).
    { intros fs' K. apply resolve_under. unfold resolve in *; simpl in *.
      by eapply walk_keeps_dirs. }
    assert (Hfile : forall (fs' : tree) (d : list Byte.byte),
               adds_dirs fs fs' -> fs' !! r <> Some (File d)).
    { intros fs' d Ad E. destruct (Ad r) as [E'|[_ E']]; [|congruence].
      rewrite E in E'. symmetry in E'. by eapply Hw, E'; apply on_way_end. }
    destruct (os_mkdir cwd P fs) as [e|fs'] eqn:M.
    + destruct e.
      * (* a missing ancestor: the parent is made first *)
        destruct IH as (fs1 & MP & A1). rewrite MP.
        pose proof (added_within_adds _ _ _ _ A1) as Ad.
        pose proof (adds_dirs_keeps _ _ Ad) as K.
        assert (W1 : walk fs1 D (q ++ [x]) = inr r).
        { pose proof (mkdir_parents_is_dir cwd ab _ fs fs1 MP) as I.
          rewrite rev_involutive in I. unfold is_dir in I.
          rewrite (resolve_under fs1 ab rootparts D q) in I.
          2:{ unfold resolve in *; simpl in *. by eapply walk_keeps_dirs. }
          destruct (walk fs1 D q) as [e|c] eqn:Wq; [discriminate|].
          destruct (fs1 !! c) as [[d|]|] eqn:Ec; try discriminate.
          pose proof (walk_norm _ _ _ _ Wq) as ->.
          rewrite walk_app, Wq. simpl. rewrite Ec.
          unfold r. by rewrite norm_from_app. }
        unfold mkdir_once, os_mkdir. rewrite (RP fs1 K), W1.
        destruct (fs1 !! r) as [[d|]|] eqn:E.
        -- by apply Hfile in E.
        -- unfold is_dir. rewrite (RP fs1 K), W1, E. simpl.
           exists fs1. split; [done|]. by apply added_within_prefix.
        -- eexists. split; [done|].
           apply added_within_insert; [|done]. by apply added_within_prefix.
      * (* the path exists *)
        unfold os_mkdir in M. unfold is_dir.
        rewrite (RP fs (keeps_dirs_refl fs)) in *.
        destruct (walk fs D (q ++ [x])) as [e|r'] eqn:W.
        { injection M as ->. by apply walk_errno in W as [W|W]. }
        pose proof (walk_norm _ _ _ _ W) as ->. fold r in M |- *.
        destruct (fs !! r) as [[d|]|] eqn:E; [|simpl|discriminate].
        -- by apply (Hfile fs d (adds_dirs_refl fs)) in E.
        -- exists fs. split; [done|apply added_within_refl].
      * (* a regular file on the way *)
        exfalso. unfold os_mkdir in M.
        rewrite (RP fs (keeps_dirs_refl fs)) in M.
        destruct (walk fs D (q ++ [x])) as [e|r'] eqn:W.
        -- injection M as ->.
           apply walk_ENOTDIR in W as (k & d & Hk & Hd).
           eapply Hw; [|exact Hd]. exists k. split; [lia|done].
        -- by destruct (fs !! r').
      * by apply os_mkdir_errno in M.
    + (* made at once *)
      unfold os_mkdir in M. rewrite (RP fs (keeps_dirs_refl fs)) in M.
      destruct (walk fs D (q ++ [x])) as [e|r'] eqn:W; [discriminate|].
      pose proof (walk_norm _ _ _ _ W) as ->. fold r in M.
      destruct (fs !! r) eqn:E; [discriminate|].
      injection M as <-. eexists. split; [done|].
      apply added_within_insert; [apply added_within_refl|done].
Qed.

(** Once the parent of a path below [D] is a directory, the path leads to
    its normal form. *)
Lemma walk_after_parent (ab : PurePath.root) (rootparts D q : list string)
  (x : string) (fs : tree) :
  resolve cwd fs (PurePath.mk ab rootparts) = inr D ->
  is_dir cwd (PurePath.mk ab (rootparts ++ q)) fs = true ->
  resolve cwd fs (PurePath.mk ab (rootparts ++ q ++ [x]))
  = inr (Spec.norm_from D (q ++ [x])).
Proof.
  intros R I.
  unfold is_dir in I. rewrite (resolve_under fs ab rootparts D q R) in I.
  rewrite (resolve_under fs ab rootparts D (q ++ [x]) R).
  destruct (walk fs D q) as [e|c] eqn:Wq; [discriminate|].
  destruct (fs !! c) as [[d|]|] eqn:Ec; try discriminate.
  pose proof (walk_norm _ _ _ _ Wq) as ->.
  rewrite walk_app, Wq. simpl. rewrite Ec. by rewrite norm_from_app.
Qed.

Lemma snoc_case (l : list string) :
  l = [] \/ exists (l' : list string) (x : string), l = l' ++ [x].
Proof.
  induction l as [|x l _] using rev_ind; [by left|]. right. by exists l, x.
Qed.

(** The lexical parent of a path that leads somewhere is a directory, so
    making it changes nothing. *)
Lemma mkdir_parents_of_parent (ab : PurePath.root) (rootparts D : list string)
  (fs : tree) :
  resolve cwd fs (PurePath.mk ab rootparts) = inr D ->
  fs !! D = Some Dir ->
  mkdir_parents cwd ab (rev (removelast rootparts)) true fs = inr fs.
Proof.
  intros R HD. destruct (snoc_case rootparts) as [->|(rp & x & ->)].
  - by eapply mkdir_parents_exists.
  - rewrite removelast_last. unfold resolve in R; simpl in R.
    rewrite walk_app in R.
    destruct (walk fs _ rp) as [e|c] eqn:W; [discriminate|]. simpl in R.
    destruct (fs !! c) as [[d|]|] eqn:E; try discriminate.
    by eapply mkdir_parents_exists.
Qed.

End WithCwd.
End PlanFacts.

(** * Extracting the members of a compatible archive *)
Module ExtractFacts.
Import Run SecureTarProcessor Totals TotalsFacts Inv FsFacts PathFacts Plan
  PlanFacts WalkFacts.
Local Open Scope list_scope.

Section WithCwd.
Variable cwd : list string.

Lemma accepts_relative (D : list string) (name : string) :
  Spec.accepts D name = true ->
  PurePath.absolute (PurePath.of_string name) = false.
Proof.
  unfold Spec.accepts. intros [H _]%andb_true_iff. by apply negb_true_iff.
Qed.

Lemma accepts_inside (D : list string) (name : string) :
  Spec.accepts D name = true -> D `prefix_of` Spec.canonical D name.
Proof.
  unfold Spec.accepts. intros [_ H]%andb_true_iff.
  by apply bool_decide_eq_true in H.
Qed.

(** A member with a relative name, in a tree that has room for it, is dealt
    with without error, and only as planned. *)
Lemma extract_member_ok (root : PurePath.t) (D : list string)
  (m : Tar.TarInfo) (s : state) :
  rooted cwd (fs s) root D ->
  PurePath.absolute (PurePath.of_string (Tar.name m)) = false ->
  (forall (p : list string) (d : list Byte.byte),
      needs_dir D m p -> fs s !! p <> Some (Fs.File d)) ->
  (Tar.isfile m = true ->
   fs s !! dest_of D m <> Some Fs.Dir /\ ~ needs_dir D m (dest_of D m)) ->
  (Tar.isfile m = true -> Tar.damage m = None) ->
  exists s' : state,
    extract_member cwd root m s = (Return tt, s')
    /\ touched D m (fs s) (fs s')
    /\ (Tar.isfile m = true ->
        fs s' !! dest_of D m = Some (Fs.File (Tar.data m))).
Proof.
  destruct root as [ab rootparts]. intros [R HD] Habs Hdirs Hfile Hread.
  unfold extract_member, PurePath.joinpath, PurePath.join. cbv zeta.
  rewrite Habs. fold (comps m). unfold PurePath.parent.
  cbn [PurePath.absolute PurePath.anchor PurePath.parts]. unfold Fs.mkdir at 1.
  cbn [PurePath.absolute PurePath.anchor PurePath.parts].
  assert (Hway : forall (q' : list string) (x : string) (p : list string),
             comps m = q' ++ [x] -> on_way D q' p -> needs_dir D m p).
  { intros q' x p E (k & Hk & ->). right. exists k. rewrite E. split.
    - left. rewrite length_app. simpl. lia.
    - by rewrite take_app_le. }
  assert (Hfs1 : exists fs1 : Fs.tree,
             Fs.mkdir_parents cwd ab (rev (removelast (rootparts ++ comps m)))
               true (fs s) = inr fs1
             /\ (forall p : list string,
                   fs1 !! p = fs s !! p
                   \/ (fs s !! p = None /\ fs1 !! p = Some Fs.Dir
                       /\ needs_dir D m p))
             /\ Fs.resolve cwd fs1 (PurePath.mk ab (rootparts ++ comps m))
                = inr (dest_of D m)).
  { unfold dest_of, Spec.canonical. fold (comps m).
    destruct (snoc_case (comps m)) as [E|(q' & x & E)]; rewrite E in *.
    - exists (fs s). rewrite !app_nil_r.
      split; [by eapply mkdir_parents_of_parent|]. split; [by left|done].
    - rewrite app_assoc, removelast_last.
      destruct (mkdir_parents_under cwd ab rootparts D q' (fs s) R HD)
        as (fs1 & MP & A).
      { intros p d W. apply Hdirs. by eapply Hway. }
      exists fs1. split; [done|]. split.
      + intros p. destruct (A p) as [Ep|(E1 & E2 & W)]; [by left|].
        right. split; [done|]. split; [done|]. by eapply Hway.
      + rewrite <- app_assoc. apply walk_after_parent.
        * unfold Fs.resolve in *; simpl in *.
          eapply walk_keeps_dirs; [|done].
          by eapply adds_dirs_keeps, added_within_adds.
        * pose proof (mkdir_parents_is_dir cwd ab _ _ _ MP) as I.
          by rewrite rev_involutive in I. }
  destruct Hfs1 as (fs1 & MP & Hadd & RS).
  unfold bind at 1, sys at 1. rewrite MP.
  destruct (Tar.isfile m) eqn:Ef.
  - destruct (Hfile eq_refl) as [Hnd Hnn].
    unfold bind, sys_get, lift, sys_do, print, Fs.open_wb, Tar.read.
    cbn [fs stdout]. rewrite RS, (Hread eq_refl).
    assert (E1 : fs1 !! dest_of D m <> Some Fs.Dir).
    { destruct (Hadd (dest_of D m)) as [E|(_ & _ & N)];
        [congruence|contradiction]. }
    assert (Hw : forall o : option Fs.node,
               o = fs1 !! dest_of D m -> o <> Some Fs.Dir) by (by intros o ->).
    destruct (fs1 !! dest_of D m) as [[d|]|]; [|by destruct (Hw _ eq_refl)|];
      (eexists; split; [reflexivity|]); cbn [fs]; rewrite write_open;
      (split; [|by rewrite lookup_insert_eq]); intros p;
      (destruct (decide (dest_of D m = p)) as [<-|Hne];
       [right; right; by rewrite lookup_insert_eq
       |rewrite lookup_insert_ne by done;
        destruct (Hadd p) as [Ep|Ep]; [by left|by right; left]]).
  - destruct (Tar.isdir m) eqn:Ed.
    + assert (Hnd : needs_dir D m (dest_of D m)).
      { right. exists (length (comps m)). split; [by right|].
        unfold dest_of, Spec.canonical. fold (comps m).
        by rewrite firstn_all. }
      unfold bind, sys, print, Fs.mkdir, Fs.mkdir_once, Fs.os_mkdir, Fs.is_dir.
      cbn [fs stdout]. rewrite RS.
      destruct (fs1 !! dest_of D m) as [[d|]|] eqn:E1.
      * exfalso. destruct (Hadd (dest_of D m)) as [E|(_ & E & _)];
          [|congruence].
        rewrite E1 in E. symmetry in E. by eapply Hdirs, E.
      * simpl. eexists; split; [reflexivity|]. cbn [fs].
        split; [|discriminate]. intros p.
        destruct (Hadd p) as [Ep|Ep]; [by left|by right; left].
      * eexists; split; [reflexivity|]. cbn [fs].
        split; [|discriminate]. intros p.
        destruct (decide (dest_of D m = p)) as [<-|Hne].
        -- right; left. rewrite lookup_insert_eq. split; [|done].
           destruct (Hadd (dest_of D m)) as [E|(E & _)]; congruence.
        -- rewrite lookup_insert_ne by done.
           destruct (Hadd p) as [Ep|Ep]; [by left|by right; left].
    + unfold ret. eexists; split; [reflexivity|]. cbn [fs].
      split; [|discriminate]. intros p.
      destruct (Hadd p) as [Ep|Ep]; [by left|by right; left].
Qed.

(** Dealing with a member of a compatible archive leaves room for the
    others. *)
Lemma touched_fits (D : list string) (all : list Tar.TarInfo)
  (m : Tar.TarInfo) (fs fs' : Fs.tree) :
  compatible D all -> In m all -> fits fs D all -> touched D m fs fs' ->
  fits fs' D all.
Proof.
  intros Hcomp Hm [F1 F2] T. split.
  - intros m' p d Hm' N E.
    destruct (T p) as [Ep|[(_ & Ep & _)|(Hf & -> & _)]].
    + rewrite Ep in E. by eapply F1.
    + congruence.
    + by eapply (Hcomp m m').
  - intros m' Hm' Hf' E.
    destruct (T (dest_of D m')) as [Ep|[(_ & _ & N)|(_ & _ & Ep)]].
    + rewrite Ep in E. by eapply F2.
    + by eapply (Hcomp m' m).
    + congruence.
Qed.

(** The walk over the members of a compatible archive with accepted names,
    from a tree that has room for it: it completes; every regular file that
    no later member rewrites holds the content of its member; and a regular
    file that is not the destination of a member is left as it was. *)
Lemma extract_loop_ok (self : t) (root : PurePath.t) (D : list string)
  (all rest : list Tar.TarInfo) (tot : totals) (s : state) :
  (forall m : Tar.TarInfo, In m rest -> In m all) ->
  passes_all self tot rest ->
  (forall m : Tar.TarInfo, In m all -> Spec.accepts D (Tar.name m) = true) ->
  (forall m : Tar.TarInfo,
      In m all -> Tar.isfile m = true -> Tar.damage m = None) ->
  compatible D all ->
  rooted cwd (fs s) root D ->
  fits (fs s) D all ->
  exists s' : state,
    extract_loop cwd self root (Tar.archive rest) tot s
    = (Return (after tot rest), s')
    /\ (forall (p : list string) (d : list Byte.byte),
          fs s !! p = Some (Fs.File d) ->
          (forall m : Tar.TarInfo,
              In m rest -> Tar.isfile m = true -> dest_of D m <> p) ->
          fs s' !! p = Some (Fs.File d))
    /\ (forall (i : nat) (m : Tar.TarInfo),
          rest !! i = Some m -> Tar.isfile m = true ->
          (forall (j : nat) (m' : Tar.TarInfo),
              (i < j)%nat -> rest !! j = Some m' -> Tar.isfile m' = true ->
              dest_of D m' <> dest_of D m) ->
          fs s' !! dest_of D m = Some (Fs.File (Tar.data m))).
Proof.
  intros Hin Hp Hconf Hread Hcomp. revert tot s Hp.
  induction rest as [|m rest IH]; intros tot s Hp Hroot Hfits.
  - exists s. split; [done|]. split; [done|]. intros i m E. by destruct i.
  - destruct Hp as [Hm Hp]. cbn [Tar.archive Tar.feed extract_loop].
    unfold bind at 1, pure at 1. rewrite (check_limits_passes _ _ _ Hm).
    unfold bind at 1.
    assert (Hmall : In m all) by (apply Hin; by left).
    destruct (extract_member_ok root D m s Hroot
                (accepts_relative D _ (Hconf m Hmall)))
      as (s1 & E1 & T & W).
    { intros p d N. destruct Hfits as [F1 _]. by eapply F1. }
    { intros Hf. split.
      - destruct Hfits as [_ F2]. by apply F2.
      - by apply (Hcomp m m). }
    { by apply Hread. }
    rewrite E1.
    pose proof (extract_member_keeps cwd root m s) as K.
    rewrite E1 in K. cbn [snd] in K.
    destruct (IH (fun m' H => Hin m' (or_intror H)) (advance tot m) s1 Hp)
      as (s' & EL & Frame & Content).
    { destruct Hroot as [R HD]. split; [|by apply K].
      unfold Fs.resolve in *. by eapply walk_keeps_dirs. }
    { by eapply touched_fits. }
    exists s'. split; [exact EL|]. split.
    + intros p d Ep Hno. apply Frame.
      * destruct (T p) as [Ep'|[(Ep' & _)|(Hf & -> & _)]].
        -- congruence.
        -- congruence.
        -- exfalso. eapply (Hno m); [by left|done|done].
      * intros m' Hm'. apply Hno. by right.
    + intros [|i] m0 Ei Hf Hlater.
      * injection Ei as <-. apply Frame; [by apply W|].
        intros m' Hm' Hf'. apply list_elem_of_In in Hm'.
        apply list_elem_of_lookup in Hm' as [j Hj].
        by apply (Hlater (S j) m'); [lia| |].
      * apply (Content i m0 Ei Hf). intros j m' Hij Ej.
        apply (Hlater (S j) m'); [lia|done].
Qed.

(** The destination, when its path leads to no regular file, is made (or
    found), and the tree still has room for a compatible archive. *)
Lemma destination_ready (root : PurePath.t) (D : list string)
  (ms : list Tar.TarInfo) (fs : Fs.tree) :
  Fs.resolve cwd fs root = inr D ->
  (forall d : list Byte.byte, fs !! D <> Some (Fs.File d)) ->
  compatible D ms ->
  fits fs D ms ->
  exists fs1 : Fs.tree,
    Fs.mkdir cwd false true root fs = inr fs1
    /\ rooted cwd fs1 root D /\ fits fs1 D ms.
Proof.
  intros R HD Hcomp [F1 F2].
  unfold Fs.mkdir, Fs.mkdir_once, Fs.os_mkdir, Fs.is_dir. rewrite R.
  destruct (fs !! D) as [[d|]|] eqn:E.
  - by destruct (HD d).
  - simpl. exists fs. split; [done|]. split; [by split|by split].
  - eexists. split; [done|].
    pose proof (insert_dir_adds fs D E) as A. split; [split|split].
    + unfold Fs.resolve in *.
      eapply walk_keeps_dirs; [by apply adds_dirs_keeps|done].
    + by rewrite lookup_insert_eq.
    + intros m p d Hm N Ep. destruct (decide (D = p)) as [<-|Hne].
      * by rewrite lookup_insert_eq in Ep.
      * rewrite lookup_insert_ne in Ep by done. by eapply F1.
    + intros m Hm Hf Ep. destruct (decide (D = dest_of D m)) as [Heq|Hne].
      * apply (Hcomp m m Hm Hm Hf). by left.
      * rewrite lookup_insert_ne in Ep by done. by eapply F2.
Qed.

End WithCwd.
End ExtractFacts.

(** * The library models on examples *)

Example split_ex :
  PurePath.split "a//b/./../c" = ["a"; ""; "b"; "."; ".."; "c"].
Proof. reflexivity. Qed.

Example of_string_ex :
  PurePath.of_string "a//b/./../c"
  = PurePath.mk PurePath.Relative ["a"; "b"; ".."; "c"].
Proof. reflexivity. Qed.

Example stem_ex :
  PurePath.stem (PurePath.of_string "dir/backup.tar.gz") = "backup.tar"
  /\ PurePath.stem (PurePath.of_string ".hidden") = ".hidden"
  /\ PurePath.stem (PurePath.of_string "data.tar") = "data".
Proof. repeat split; reflexivity. Qed.

Example fmt_ex :
  Fmt.ljust 6 "ab" = "ab    " /\ Fmt.rjust 6 (Fmt.str_int 1234) = "  1234"
  /\ Fmt.str_int 0 = "0" /\ Fmt.str_int (-5) = "-5".
Proof. repeat split; reflexivity. Qed.

(** Two leading slashes are kept, three are one. *)
Example to_string_ex :
  map (fun p => PurePath.to_string (PurePath.of_string p))
    ["//out"; "///out"; "//"; "/"; "out//x/"; ""; "a/.."]
  = ["//out"; "/out"; "//"; "/"; "out/x"; "."; "a/.."]
  /\ PurePath.to_string (PurePath.parent (PurePath.of_string "//out")) = "//"
  /\ PurePath.to_string (PurePath.joinpath (PurePath.of_string "out") "//x")
     = "//x".
Proof. repeat split; reflexivity. Qed.

(** The file name of an [OSError] as [str] shows it. *)
Example repr_ex :
  Py.repr "out/a" = "'out/a'"
  /\ Py.repr "it's"
     = String Py.double_quote ("it's" ++ String Py.double_quote "")
  /\ Py.repr (String (ascii_of_N 9) "a\b") = "'\ta\\b'"
  /\ Py.repr (String (ascii_of_N 160) (String (ascii_of_N 233) ""))
     = "'\xa0" ++ String (ascii_of_N 233) "'"
  /\ Py.str (Py.OSError Py.EEXIST "out/a") = "[Errno 17] File exists: 'out/a'".
Proof. repeat split; reflexivity. Qed.

(** A destination given with two slashes is printed with both; for the
    kernel it is [/out]. *)
Example double_slash_destination :
  SecureTarProcessor.extract_archive Sample.cwd Sample.processor "a.tar"
    Tar.Eof (Some "//out") Sample.start
  = (Run.Return true,
     {| Run.fs := <[ ["out"] := Fs.Dir ]> Sample.tree0;
        Run.stdout :=
          ["Extracting a.tar to //out"; Fmt.rule; Fmt.rule;
           "Extraction complete: 0 files, 0 bytes"] |}).
Proof. vm_compute. reflexivity. Qed.

Example accepts_ex :
  let D := ["srv"; "out"] in
  Spec.accepts D "a/b/../../c" = true
  /\ Spec.canonical D "a/b/../../c" = ["srv"; "out"; "c"]
  /\ Spec.accepts D "../out/c" = true
  /\ Spec.accepts D "../../etc/passwd" = false
  /\ Spec.canonical D "../../etc/passwd" = ["etc"; "passwd"]
  /\ Spec.accepts D "../out_evil/c" = false
  /\ Spec.accepts D "/srv/out/c" = false.
Proof. cbv zeta. repeat split; vm_compute; reflexivity. Qed.

(** * The claims *)
Module Claims.
Import Run SecureTarProcessor Totals TotalsFacts Inv FsFacts WalkFacts.

Lemma list_loop_archive_Return (self : t) (ms : list Tar.TarInfo)
  (tot tot1 : totals) (s s1 : state) :
  list_loop self (Tar.archive ms) tot s = (Return tot1, s1) ->
  passes_all self tot ms /\ tot1 = after tot ms.
Proof.
  revert tot s. induction ms as [|m ms IH]; intros tot s; simpl.
  - unfold ret. intros [= <- <-]. done.
  - unfold bind at 1, pure at 1.
    destruct (check_limits self tot m) as [tot'|e] eqn:C; [|discriminate].
    apply check_limits_Return in C as [Hp ->]. unfold bind at 1, print at 1.
    intros H. apply IH in H as [H1 H2]. done.
Qed.

Lemma extract_loop_app_Return (cwd : list string) (self : t)
  (root : PurePath.t) (ms1 ms2 : list Tar.TarInfo) (tot tot2 : totals)
  (s s2 : state) :
  extract_loop cwd self root (Tar.archive (ms1 ++ ms2)) tot s
  = (Return tot2, s2) ->
  exists (tot1 : totals) (s1 : state),
    extract_loop cwd self root (Tar.archive ms1) tot s = (Return tot1, s1)
    /\ extract_loop cwd self root (Tar.archive ms2) tot1 s1 = (Return tot2, s2).
Proof.
  revert tot s. induction ms1 as [|m ms IH]; intros tot s; simpl.
  - intros H. exists tot, s. done.
  - unfold bind at 1 2, pure at 1 2.
    destruct (check_limits self tot m) as [tot'|e] eqn:C; [|discriminate].
    unfold bind at 1 2.
    destruct (extract_member cwd root m s) as [[[]|e] s']; [|discriminate].
    apply IH.
Qed.

Lemma after_grown_by (tot : totals) (ms : list Tar.TarInfo) :
  grown_by tot (after tot ms) ms.
Proof.
  destruct (after_totals ms tot) as [Hc Hs]. unfold grown_by.
  split; [done|]. split; [done|]. split; [lia|].
  intros Hn. pose proof (file_bytes_nonneg ms Hn). lia.
Qed.

(** C7, as the program has it. Within one walk, of either method, the two
    counters start at zero; the walk reaches every later point of the
    archive with a member count that grew by one per member of any kind, so
    never decreases, and a cumulative size that changed by the declared
    size of each regular file and of nothing else. The program adds the
    declared size as [tarfile] delivers it: the cumulative size does not
    decrease over members whose declared sizes are not negative, and it
    does decrease at a negative one. *)
Theorem running_totals (cwd : list string) (self : t) (root : PurePath.t)
  (ms1 ms2 : list Tar.TarInfo) (s : state) :
  file_count zero = 0 /\ total_size zero = 0
  /\ (forall (tot : totals) (s' : state),
        list_loop self (Tar.archive (ms1 ++ ms2)) zero s = (Return tot, s') ->
        exists (tot1 : totals) (s1 : state),
          list_loop self (Tar.archive ms1) zero s = (Return tot1, s1)
          /\ list_loop self (Tar.archive ms2) tot1 s1 = (Return tot, s')
          /\ grown_by zero tot1 ms1 /\ grown_by tot1 tot ms2)
  /\ (forall (tot : totals) (s' : state),
        extract_loop cwd self root (Tar.archive (ms1 ++ ms2)) zero s
        = (Return tot, s') ->
        exists (tot1 : totals) (s1 : state),
          extract_loop cwd self root (Tar.archive ms1) zero s
          = (Return tot1, s1)
          /\ extract_loop cwd self root (Tar.archive ms2) tot1 s1
             = (Return tot, s')
          /\ grown_by zero tot1 ms1 /\ grown_by tot1 tot ms2).
Proof.
  split; [done|]. split; [done|]. split.
  - intros tot s' H.
    pose proof (list_loop_archive_Return _ _ _ _ _ _ H) as [Hp ->].
    apply passes_all_app in Hp as [Hp1 Hp2].
    exists (after zero ms1),
      {| fs := fs s; stdout := stdout s ++ map member_line ms1 |}.
    unfold Tar.archive in *.
    rewrite (list_loop_feed _ _ _ _ _ Hp1) in |- *. simpl.
    split; [done|]. split.
    + rewrite <- H.
      rewrite <- (list_loop_feed self ms1 (Tar.feed ms2 Tar.Eof) zero s Hp1).
      f_equal. clear.
      induction ms1 as [|m ms IH]; simpl; [done|]. by rewrite IH.
    + split; [apply after_grown_by|]. rewrite after_app. apply after_grown_by.
  - intros tot s' H.
    destruct (extract_loop_app_Return _ _ _ _ _ _ _ _ _ H)
      as (tot1 & s1 & H1 & H2).
    exists tot1, s1. split; [done|]. split; [done|].
    apply extract_loop_archive_Return in H1 as [_ ->].
    apply extract_loop_archive_Return in H2 as [_ ->].
    split; apply after_grown_by.
Qed.


(** C8. The destination directory, by default the archive's stem followed by
    [_extracted], is made before anything else. If that fails the exception
    leaves [extract_archive] with nothing printed and the tree as it was;
    otherwise, whatever the method returns - [False] for an archive that
    cannot be opened or a ceiling that is passed as much as [True] - the
    destination is a directory afterwards. In particular a destination that
    is missing is made: when the first [mkdir] succeeds it has added exactly
    that node to the tree, as a directory; the method then returns,
    whatever the archive, and the node is a directory afterwards. What is
    printed comes after: the report starts with the line that names the
    destination. *)
Theorem destination_made_first (cwd : list string) (self : t)
  (tar_path : string) (tar : Tar.stream) (extract_to : option string)
  (s : state) :
  extract_path_of tar_path None
  = PurePath.of_string
      (PurePath.stem (PurePath.of_string tar_path) ++ "_extracted")
  /\ let root := extract_path_of tar_path extract_to in
     match extract_archive cwd self tar_path tar extract_to s with
     | (Raise e, s') =>
         s' = s /\ Fs.mkdir cwd false true root (fs s) = inl e
     | (Return b, s') =>
         Fs.is_dir cwd root (fs s') = true
         /\ exists fs1 : Fs.tree,
              Fs.mkdir cwd false true root (fs s) = inr fs1
              /\ Fs.is_dir cwd root fs1 = true
              /\ keeps_dirs fs1 (fs s')
     end
  /\ forall (r : list string) (fs1 : Fs.tree),
       Fs.resolve cwd (fs s) (extract_path_of tar_path extract_to) = inr r ->
       fs s !! r = None ->
       Fs.mkdir cwd false true (extract_path_of tar_path extract_to) (fs s)
       = inr fs1 ->
       fs1 = <[r := Fs.Dir]> (fs s)
       /\ exists (b : bool) (s' : state) (lines : list string),
            extract_archive cwd self tar_path tar extract_to s
            = (Return b, s')
            /\ fs s' !! r = Some Fs.Dir
            /\ stdout s'
               = (stdout s
                  ++ Report.extract_header tar_path
                       (extract_path_of tar_path extract_to)
                  ++ lines)%list.
Proof.
  split; [done|]. rewrite extract_archive_run. cbv zeta.
  pose proof (extract_loop_keeps cwd self (extract_path_of tar_path extract_to)
                tar zero) as K.
  split.
  - destruct (Fs.mkdir cwd false true _ (fs s)) as [e|fs1] eqn:M; [done|].
    pose proof (mkdir_is_dir _ _ _ _ _ M) as D.
    specialize (K (Report.say {| fs := fs1; stdout := stdout s |}
                     (Report.extract_header tar_path
                        (extract_path_of tar_path extract_to)))).
    destruct (extract_loop cwd self _ tar zero _) as [[tot|e] s1];
      cbn [fs snd Report.say] in *;
      (split; [by eapply is_dir_keeps_dirs|]); exists fs1; done.
  - intros r fs1 R E M1.
    assert (M : Fs.mkdir cwd false true
                  (extract_path_of tar_path extract_to) (fs s)
                = inr (<[r := Fs.Dir]> (fs s))).
    { unfold Fs.mkdir, Fs.mkdir_once, Fs.os_mkdir. by rewrite R, E. }
    split; [congruence|]. rewrite M.
    specialize (K (Report.say {| fs := <[r := Fs.Dir]> (fs s);
                                 stdout := stdout s |}
                     (Report.extract_header tar_path
                        (extract_path_of tar_path extract_to)))).
    pose proof (extract_loop_prints cwd self
                  (extract_path_of tar_path extract_to) tar zero
                  (Report.say {| fs := <[r := Fs.Dir]> (fs s);
                                 stdout := stdout s |}
                     (Report.extract_header tar_path
                        (extract_path_of tar_path extract_to))))
      as [lines L].
    destruct (extract_loop cwd self _ tar zero _) as [[tot|e] s1];
      cbn [fs snd stdout Report.say] in *.
    + exists true. eexists. exists (lines ++ Report.extract_summary tot)%list.
      split; [done|].
      split; [apply K; by rewrite lookup_insert_eq|].
      unfold Report.say. cbn [stdout]. by rewrite L, <- !app_assoc.
    + exists false. eexists. exists (lines ++ [Report.extract_error e])%list.
      split; [done|].
      split; [apply K; by rewrite lookup_insert_eq|].
      unfold Report.say. cbn [stdout]. by rewrite L, <- !app_assoc.
Qed.

(** C6. For an archive and ceilings, [list_archive] has one return value and
    one list of printed lines, whatever the state it runs in; it never
    raises and leaves the tree as it found it. Run twice in a row, it
    returns the same value and prints the same lines both times. *)
Theorem list_twice_same (self : t) (tar_path : string) (tar : Tar.stream) :
  exists (b : bool) (lines : list string),
    forall s : state,
      list_archive self tar_path tar s = (Return b, Report.say s lines)
      /\ list_archive self tar_path tar (Report.say s lines)
         = (Return b, Report.say (Report.say s lines) lines)
      /\ fs (snd (list_archive self tar_path tar s)) = fs s.
Proof.
  destruct (list_loop_report self tar zero) as (o & lines & H).
  assert (Hone : exists (b : bool) (out : list string), forall s : state,
             list_archive self tar_path tar s = (Return b, Report.say s out)).
  { destruct o as [tot|e].
    - exists true,
        (Report.list_header tar_path ++ lines ++ Report.list_summary tot)%list.
      intros s. rewrite list_archive_run, H.
      change {| fs := ?f; stdout := (?o ++ lines)%list |}
        with (Report.say {| fs := f; stdout := o |} lines).
      by rewrite state_eta, !say_say.
    - exists false,
        (Report.list_header tar_path ++ lines ++ [Report.list_error e])%list.
      intros s. rewrite list_archive_run, H.
      change {| fs := ?f; stdout := (?o ++ lines)%list |}
        with (Report.say {| fs := f; stdout := o |} lines).
      by rewrite state_eta, !say_say. }
  destruct Hone as (b & out & Hone). exists b, out. intros s.
  rewrite !Hone. done.
Qed.

Lemma list_archive_complete (self : t) (tar_path : string)
  (ms : list Tar.TarInfo) (s : state) :
  passes_all self zero ms ->
  list_archive self tar_path (Tar.archive ms) s
  = (Return true,
     Report.say s (Report.list_header tar_path ++ map member_line ms
                   ++ Report.list_summary (after zero ms))).
Proof.
  intros Hp. rewrite list_archive_run. unfold Tar.archive.
  rewrite (list_loop_feed _ _ _ _ _ Hp). cbn [list_loop]. unfold ret.
  say_norm.
Qed.

Lemma list_archive_abort (self : t) (tar_path : string)
  (ms : list Tar.TarInfo) (m : Tar.TarInfo) (rest : Tar.stream) (s : state) :
  passes_all self zero ms ->
  ~ passes self (after zero ms) m ->
  list_archive self tar_path (Tar.feed ms (Tar.Entry m rest)) s
  = (Return false,
     Report.say s (Report.list_header tar_path ++ map member_line ms
                   ++ ["Error reading tar file: "
                       ++ limit_message self (after zero ms)])).
Proof.
  intros Hp Hn. rewrite list_archive_run.
  rewrite (list_loop_feed _ _ _ _ _ Hp). cbn [list_loop].
  unfold bind at 1, pure at 1. rewrite (check_limits_fails _ _ _ Hn).
  say_norm.
Qed.

(** The ceilings in the words of the claims. *)
Lemma passes_after_zero (self : t) (ms : list Tar.TarInfo) (m : Tar.TarInfo) :
  passes self (after zero ms) m <->
  Z.of_nat (length ms) + 1 <= max_files self
  /\ (Tar.isfile m = true ->
      Spec.file_bytes ms + Tar.size m <= max_extract_size self).
Proof.
  unfold passes. destruct (after_totals ms zero) as [-> ->]. simpl. tauto.
Qed.

Lemma limit_message_after_zero (self : t) (ms : list Tar.TarInfo) :
  limit_message self (after zero ms)
  = if max_files self <? Z.of_nat (length ms) + 1
    then "Too many files (>" ++ Fmt.str_int (max_files self) ++ ")"
    else "Archive too large (>" ++ Fmt.str_int (max_extract_size self)
         ++ " bytes)".
Proof.
  unfold limit_message. destruct (after_totals ms zero) as [-> _]. done.
Qed.

(** C3. Let the walk of [extract_archive] over the members [ms] complete, and
    let the next member [m] pass a ceiling: it is one member too many, or it
    is a regular file whose declared size takes the cumulative size over the
    maximum. Then [extract_archive] returns [False], its last line names the
    ceiling, and the tree is exactly the tree after extracting [ms] alone:
    nothing is made or written for [m] or for anything after it.
    [list_archive] stops at the same member with the same message. *)
Theorem ceiling_aborts_before_effects (cwd : list string) (self : t)
  (tar_path : string) (ms : list Tar.TarInfo) (m : Tar.TarInfo)
  (rest : Tar.stream) (extract_to : option string) (s : state) :
  fst (extract_archive cwd self tar_path (Tar.archive ms) extract_to s)
  = Return true ->
  (max_files self < Z.of_nat (length ms) + 1
   \/ (Tar.isfile m = true
       /\ max_extract_size self < Spec.file_bytes ms + Tar.size m)) ->
  let msg :=
    if max_files self <? Z.of_nat (length ms) + 1
    then "Too many files (>" ++ Fmt.str_int (max_files self) ++ ")"
    else "Archive too large (>" ++ Fmt.str_int (max_extract_size self)
         ++ " bytes)" in
  let before :=
    snd (extract_archive cwd self tar_path (Tar.archive ms) extract_to s) in
  let r :=
    extract_archive cwd self tar_path (Tar.feed ms (Tar.Entry m rest))
      extract_to s in
  fst r = Return false
  /\ fs (snd r) = fs before
  /\ (exists out : list string,
        stdout before
        = (out ++ Report.extract_summary
                    {| file_count := Z.of_nat (length ms);
                       total_size := Spec.file_bytes ms |})%list
        /\ stdout (snd r)
           = (out ++ [("Error extracting tar file: " ++ msg)%string])%list)
  /\ list_archive self tar_path (Tar.feed ms (Tar.Entry m rest)) s
     = (Return false,
        Report.say s (Report.list_header tar_path ++ map member_line ms
                      ++ ["Error reading tar file: " ++ msg])).
Proof.
  intros H1 H2. cbv zeta.
  assert (Hn : ~ passes self (after zero ms) m).
  { rewrite passes_after_zero. intros [Hc Hs].
    destruct H2 as [H2|[Hf H2]]; [lia|]. specialize (Hs Hf). lia. }
  rewrite <- limit_message_after_zero.
  revert H1. rewrite !extract_archive_run. cbv zeta.
  destruct (Fs.mkdir cwd false true _ (fs s)) as [e|fs1]; [discriminate|].
  destruct (extract_loop cwd self _ (Tar.archive ms) zero _)
    as [[tot|e] s1] eqn:L; [|discriminate].
  intros _. rewrite (extract_loop_feed _ _ _ _ _ _ _ _ _ L). simpl.
  unfold bind at 1, pure at 1.
  apply extract_loop_archive_Return in L as [Hp ->].
  rewrite (check_limits_fails _ _ _ Hn). simpl.
  split; [done|]. split; [done|]. split.
  - exists (stdout s1). split; [|done].
    destruct (after_totals ms zero) as [Ec Es].
    destruct (after zero ms) as [c z]; simpl in *. by rewrite Ec, Es.
  - by apply list_archive_abort.
Qed.


(** C4, as the program has it. A hard link or a symbolic link is neither
    made nor reported: all [extract_archive] does for it is make the
    ancestor directories of its joined path. Nothing is printed, no file is
    written or changed, and nothing already in the tree is touched. *)
Theorem links_skipped_silently (cwd : list string) (root : PurePath.t)
  (m : Tar.TarInfo) (s : state) :
  Tar.islnk m = true \/ Tar.issym m = true ->
  let safe_path := PurePath.joinpath root (Tar.name m) in
  let r := extract_member cwd root m s in
  r = sys (Fs.mkdir cwd true true (PurePath.parent safe_path)) s
  /\ stdout (snd r) = stdout s
  /\ adds_dirs (fs s) (fs (snd r)).
Proof.
  intros Hl. cbv zeta.
  assert (E : extract_member cwd root m s
              = sys (Fs.mkdir cwd true true
                       (PurePath.parent
                          (PurePath.joinpath root (Tar.name m)))) s).
  { unfold extract_member, Tar.isfile, Tar.isdir, Tar.islnk, Tar.issym in *.
    cbv zeta. run_unfold.
    destruct (Fs.mkdir cwd true true _ (fs s)) as [e|fs1]; [done|].
    destruct (Tar.type m); try done; destruct Hl; discriminate. }
  rewrite E. split; [done|]. unfold sys.
  destruct (Fs.mkdir cwd true true _ (fs s)) as [e|fs1] eqn:M; simpl.
  - split; [done|apply adds_dirs_refl].
  - split; [done|by eapply mkdir_adds].
Qed.


(** C1. The program joins the destination and the member's name and writes
    there. A regular file named [../../etc/passwd], extracted to [out] from
    [/srv], is written to [/etc/passwd], and so is one named [/etc/passwd];
    both extractions return [True] and report the file as extracted. The
    destination root is [/srv/out], and the Path Sanitizer of the
    specification accepts neither name. *)
Theorem traversal_name_written_outside_root :
  let up := Sample.regular "../../etc/passwd" "pwned" in
  let abs := Sample.regular "/etc/passwd" "pwned" in
  let run (m : Tar.TarInfo) :=
    extract_archive Sample.cwd Sample.processor "evil.tar" (Tar.archive [m])
      (Some "out") Sample.start in
  Fs.resolve Sample.cwd (fs (snd (run up)))
    (extract_path_of "evil.tar" (Some "out"))
  = inr ["srv"; "out"]
  /\ Spec.accepts ["srv"; "out"] (Tar.name up) = false
  /\ Spec.accepts ["srv"; "out"] (Tar.name abs) = false
  /\ Sample.tree0 !! ["etc"; "passwd"] = None
  /\ fst (run up) = Return true
  /\ fs (snd (run up)) !! ["etc"; "passwd"]
     = Some (Fs.File (Sample.bytes "pwned"))
  /\ stdout (snd (run up))
     = ["Extracting evil.tar to out"; Fmt.rule;
        "Extracted: ../../etc/passwd"; Fmt.rule;
        "Extraction complete: 1 files, 5 bytes"]
  /\ fst (run abs) = Return true
  /\ fs (snd (run abs)) !! ["etc"; "passwd"]
     = Some (Fs.File (Sample.bytes "pwned"))
  /\ stdout (snd (run abs))
     = ["Extracting evil.tar to out"; Fmt.rule;
        "Extracted: /etc/passwd"; Fmt.rule;
        "Extraction complete: 1 files, 5 bytes"].
Proof. cbv zeta. repeat split; vm_compute; reflexivity. Qed.


(** ** The claims at concrete archives *)

(** The totals of the extract loop after one regular file of two bytes. *)
Lemma running_totals_witness :
  exists (tot1 : totals) (s1 : state),
    extract_loop Sample.cwd Sample.processor (PurePath.of_string "out")
      (Tar.archive [Sample.regular "a" "xy"]) zero Sample.ready
    = (Return tot1, s1)
    /\ grown_by zero tot1 [Sample.regular "a" "xy"]
    /\ file_count tot1 = 1 /\ total_size tot1 = 2.
Proof.
  destruct (running_totals Sample.cwd Sample.processor
              (PurePath.of_string "out")
              [Sample.regular "a" "xy"] [Sample.directory "d"] Sample.ready)
    as (_ & _ & _ & HE).
  destruct (HE (mk_totals 2 2)
              (snd (extract_loop Sample.cwd Sample.processor
                      (PurePath.of_string "out")
                      (Tar.archive [Sample.regular "a" "xy";
                                    Sample.directory "d"])
                      zero Sample.ready)))
    as (tot1 & s1 & H1 & _ & G & _).
  { vm_compute. reflexivity. }
  exists tot1, s1. split; [exact H1|]. split; [exact G|].
  destruct G as (Gc & Gs & _). simpl in Gc, Gs. split; [exact Gc|exact Gs].
Defined.

(** C7, against the claim: a regular file whose headers declare -5 bytes
    (a pax header with [GNU.sparse.realsize=-5]) passes the ceilings, and
    the cumulative size goes from 0 down to -5, in both walks;
    [list_archive] prints it as the total. *)
Lemma negative_size_lowers_the_total :
  let m := Sample.declaring "a" (-5) in
  let tot := {| file_count := 1; total_size := -5 |} in
  fst (list_loop Sample.processor (Tar.archive [m]) zero Sample.start)
  = Return tot
  /\ fst (extract_loop Sample.cwd Sample.processor (PurePath.of_string "out")
            (Tar.archive [m]) zero Sample.ready)
     = Return tot
  /\ total_size tot < total_size zero
  /\ list_archive Sample.processor "neg.tar" (Tar.archive [m]) Sample.start
     = (Return true,
        Report.say Sample.start
          ["Listing contents of: neg.tar"; Fmt.rule;
           "f a                                                -5 bytes";
           Fmt.rule; "Total files: 1"; "Total size: -5 bytes"]).
Proof. cbv zeta. repeat split; vm_compute; reflexivity. Qed.

(** One regular file declaring 101 bytes under a ceiling of 100, and a third
    member under a ceiling of two. *)
Lemma ceiling_aborts_before_effects_witness :
  (let r := extract_archive Sample.cwd Sample.small "big.tar"
              (Tar.archive [Sample.big]) (Some "out") Sample.start in
   fst r = Return false /\ fs (snd r) = Sample.tree1)
  /\ (let r := extract_archive Sample.cwd Sample.small "three.tar"
                 (Tar.archive [Sample.regular "a" "x"; Sample.directory "d";
                               Sample.regular "c" "z"])
                 (Some "out") Sample.start in
      fst r = Return false
      /\ fs (snd r)
         = fs (snd (extract_archive Sample.cwd Sample.small "three.tar"
                      (Tar.archive [Sample.regular "a" "x";
                                    Sample.directory "d"])
                      (Some "out") Sample.start))
      /\ fs (snd r) !! ["srv"; "out"; "c"] = None).
Proof.
  split.
  - pose proof (ceiling_aborts_before_effects Sample.cwd Sample.small "big.tar"
                  [] Sample.big Tar.Eof (Some "out") Sample.start) as H.
    cbv zeta in H. destruct H as (H1 & H2 & _).
    + vm_compute. reflexivity.
    + right. split; [reflexivity|]. vm_compute. reflexivity.
    + split; [exact H1|]. etransitivity; [exact H2|]. vm_compute. reflexivity.
  - pose proof (ceiling_aborts_before_effects Sample.cwd Sample.small
                  "three.tar" [Sample.regular "a" "x"; Sample.directory "d"]
                  (Sample.regular "c" "z") Tar.Eof (Some "out") Sample.start)
      as H.
    cbv zeta in H. destruct H as (H1 & H2 & _).
    + vm_compute. reflexivity.
    + left. vm_compute. reflexivity.
    + split; [exact H1|]. split; [exact H2|]. vm_compute. reflexivity.
Defined.



(** A symbolic link [new/link]: nothing printed, directories only. *)
Lemma links_skipped_silently_witness :
  let r := extract_member Sample.cwd (PurePath.of_string "out")
             (Sample.symlink "new/link" "/etc") Sample.ready in
  stdout (snd r) = [] /\ adds_dirs Sample.tree1 (fs (snd r)).
Proof.
  pose proof (links_skipped_silently Sample.cwd (PurePath.of_string "out")
                (Sample.symlink "new/link" "/etc") Sample.ready
                (or_intror eq_refl)) as H.
  cbv zeta in H. destruct H as (_ & H1 & H2). split; [exact H1|exact H2].
Defined.

(** C4, against the claim: a symbolic link named [link] is extracted with
    success; no link is made, the tree is the one the first [mkdir] left, and
    no line of the report mentions the member. *)
Lemma link_skipped_without_warning :
  extract_archive Sample.cwd Sample.processor "links.tar"
    (Tar.archive [Sample.symlink "link" "/etc"]) (Some "out") Sample.start
  = (Return true,
     {| fs := Sample.tree1;
        stdout :=
          ["Extracting links.tar to out"; Fmt.rule; Fmt.rule;
           "Extraction complete: 1 files, 0 bytes"] |}).
Proof. vm_compute. reflexivity. Qed.




(** An archive that cannot be opened, extracted from [/srv] without a
    destination: [/srv/backup_extracted] was missing, the method returns
    [False], and the directory is there. *)
Lemma destination_made_first_witness :
  let r := extract_archive Sample.cwd Sample.processor "dir/backup.tar"
             (Tar.Broken (Py.ReadError "file could not be opened successfully"))
             None Sample.start in
  Sample.tree0 !! ["srv"; "backup_extracted"] = None
  /\ fst r = Return false
  /\ fs (snd r) !! ["srv"; "backup_extracted"] = Some Fs.Dir.
Proof.
  cbv zeta.
  destruct (destination_made_first Sample.cwd Sample.processor
              "dir/backup.tar"
              (Tar.Broken
                 (Py.ReadError "file could not be opened successfully"))
              None Sample.start) as (_ & _ & H).
  destruct (H ["srv"; "backup_extracted"]
              (<[ ["srv"; "backup_extracted"] := Fs.Dir ]> Sample.tree0))
    as (_ & b & s' & lines & E & D & _);
    [vm_compute; reflexivity|vm_compute; reflexivity|reflexivity|].
  split; [vm_compute; reflexivity|]. split; [vm_compute; reflexivity|].
  rewrite E. exact D.
Defined.

(** An archive that cannot be opened: [extract_archive] returns [False],
    and the default destination, which did not exist, is there. *)
Example unreadable_archive_leaves_destination :
  let r := extract_archive Sample.cwd Sample.processor "dir/backup.tar"
             (Tar.Broken (Py.ReadError "file could not be opened successfully"))
             None Sample.start in
  Sample.tree0 !! ["srv"; "backup_extracted"] = None
  /\ r = (Return false,
          {| fs := <[ ["srv"; "backup_extracted"] := Fs.Dir ]> Sample.tree0;
             stdout :=
               ["Extracting dir/backup.tar to backup_extracted"; Fmt.rule;
                "Error extracting tar file: "
                ++ "file could not be opened successfully"] |}).
Proof. cbv zeta. split; vm_compute; reflexivity. Qed.

(** A destination whose parent is missing: the first [mkdir] raises
    [FileNotFoundError], which leaves [extract_archive]; nothing is printed
    and the archive is not looked at. *)
Example missing_parent_of_destination :
  forall tar : Tar.stream,
    extract_archive Sample.cwd Sample.processor "a.tar" tar (Some "x/out")
      Sample.start
    = (Raise (Py.OSError Py.ENOENT "x/out"), Sample.start).
Proof. intros tar. reflexivity. Qed.

End Claims.

(** * Beyond the claims: the two walks as a whole *)
Module WalkMore.
Import Run SecureTarProcessor Totals TotalsFacts Inv FsFacts WalkFacts.

(** A stream is its members followed by its end. *)
Lemma stream_shape (tar : Tar.stream) :
  tar = Tar.feed (Stream.members tar)
          match Stream.ending tar with
          | None => Tar.Eof
          | Some e => Tar.Broken e
          end.
Proof.
  induction tar as [|e|m rest IH]; simpl; [done|done|]. by rewrite <- IH.
Qed.

Lemma members_feed (ms : list Tar.TarInfo) (rest : Tar.stream) :
  Stream.members (Tar.feed ms rest) = (ms ++ Stream.members rest)%list
  /\ Stream.ending (Tar.feed ms rest) = Stream.ending rest.
Proof.
  induction ms as [|m ms [IH1 IH2]]; simpl; [done|]. by rewrite IH1, IH2.
Qed.

Lemma file_bytes_no_file (ms : list Tar.TarInfo) :
  existsb Tar.isfile ms = false -> Spec.file_bytes ms = 0.
Proof.
  induction ms as [|m ms IH]; simpl; [done|].
  destruct (Tar.isfile m); simpl; [discriminate|]. intros H. rewrite IH; done.
Qed.

(** Passing both ceilings at every member, said of the archive as a whole,
    when no declared size is negative. *)
Lemma passes_all_whole (self : t) (ms : list Tar.TarInfo) (tot : totals) :
  nonneg ms ->
  passes_all self tot ms <->
  (ms = [] \/ file_count tot + Z.of_nat (length ms) <= max_files self)
  /\ (existsb Tar.isfile ms = true ->
      total_size tot + Spec.file_bytes ms <= max_extract_size self).
Proof.
  revert tot. induction ms as [|m ms IH]; intros tot Hn.
  - simpl. split; [|done]. intros _. split; [by left|discriminate].
  - apply nonneg_cons in Hn as [Hm Hn].
    cbn [passes_all]. rewrite (IH _ Hn). unfold passes, advance.
    cbn [file_count total_size length existsb Spec.file_bytes].
    pose proof (file_bytes_nonneg ms Hn) as Hnn.
    split.
    + intros [[Hc Hs] [Hc' Hs']]. split.
      * right. destruct Hc' as [->|Hc']; simpl in *; lia.
      * intros Hf. destruct (existsb Tar.isfile ms) eqn:E.
        -- specialize (Hs' eq_refl). lia.
        -- rewrite (file_bytes_no_file _ E). rewrite orb_false_r in Hf.
           rewrite Hf in *. specialize (Hs eq_refl). lia.
    + intros [[Hc|Hc] Hs]; [discriminate|]. split; [split|split].
      * lia.
      * intros Hf. rewrite Hf in Hs. specialize (Hs eq_refl). lia.
      * destruct ms; [by left|right]. simpl in *. lia.
      * intros Hf. rewrite Hf, orb_true_r in Hs. specialize (Hs eq_refl). lia.
Qed.

Lemma passes_all_admitted (self : t) (ms : list Tar.TarInfo) :
  nonneg ms -> passes_all self zero ms <-> More.admitted self ms.
Proof.
  intros Hn. rewrite (passes_all_whole _ _ _ Hn). unfold More.admitted. simpl.
  tauto.
Qed.

(** A loop that completes has read a whole archive whose members all passed
    the ceilings. *)
Lemma list_loop_Return_inv (self : t) (tar : Tar.stream) (tot t1 : totals)
  (s s1 : state) :
  list_loop self tar tot s = (Return t1, s1) ->
  Stream.ending tar = None /\ passes_all self tot (Stream.members tar).
Proof.
  revert tot s. induction tar as [|e|m rest IH]; intros tot s; simpl.
  - done.
  - unfold raise. discriminate.
  - unfold bind at 1, pure at 1.
    destruct (check_limits self tot m) as [tot'|e] eqn:C; [|discriminate].
    apply check_limits_Return in C as [Hp ->]. unfold bind at 1, print at 1.
    intros H. apply IH in H as [H1 H2]. done.
Qed.

Lemma extract_loop_Return_inv (cwd : list string) (self : t)
  (root : PurePath.t) (tar : Tar.stream) (tot t1 : totals) (s s1 : state) :
  extract_loop cwd self root tar tot s = (Return t1, s1) ->
  Stream.ending tar = None /\ passes_all self tot (Stream.members tar).
Proof.
  revert tot s. induction tar as [|e|m rest IH]; intros tot s; simpl.
  - done.
  - unfold raise. discriminate.
  - unfold bind at 1, pure at 1.
    destruct (check_limits self tot m) as [tot'|e] eqn:C; [|discriminate].
    apply check_limits_Return in C as [Hp ->]. unfold bind at 1.
    destruct (extract_member cwd root m s) as [[[]|e] s']; [|discriminate].
    intros H. apply IH in H as [H1 H2]. done.
Qed.

Lemma list_archive_true_inv (self : t) (tar_path : string) (tar : Tar.stream)
  (s : state) :
  fst (list_archive self tar_path tar s) = Return true ->
  Stream.ending tar = None /\ passes_all self zero (Stream.members tar).
Proof.
  rewrite list_archive_run.
  destruct (list_loop self tar zero _) as [[tot|e] s1] eqn:L; [|discriminate].
  intros _. by eapply list_loop_Return_inv.
Qed.

Lemma extract_archive_true_inv (cwd : list string) (self : t)
  (tar_path : string) (tar : Tar.stream) (extract_to : option string)
  (s : state) :
  fst (extract_archive cwd self tar_path tar extract_to s) = Return true ->
  Stream.ending tar = None /\ passes_all self zero (Stream.members tar).
Proof.
  rewrite extract_archive_run. cbv zeta.
  destruct (Fs.mkdir cwd false true _ (fs s)) as [e|fs1]; [discriminate|].
  destruct (extract_loop cwd self _ tar zero _) as [[tot|e] s1] eqn:L;
    [|discriminate].
  intros _. by eapply extract_loop_Return_inv.
Qed.

Lemma list_archive_true_iff (self : t) (tar_path : string) (tar : Tar.stream)
  (s : state) :
  fst (list_archive self tar_path tar s) = Return true <->
  Stream.ending tar = None /\ passes_all self zero (Stream.members tar).
Proof.
  split.
  - apply list_archive_true_inv.
  - intros [He Hp]. rewrite (stream_shape tar), He.
    fold (Tar.archive (Stream.members tar)).
    by rewrite (Claims.list_archive_complete _ _ _ _ Hp).
Qed.

(** X1. For an archive none of whose regular files declares a negative
    size, [list_archive] returns [True] exactly when the archive is read to
    its end, it has no more members than [max_files] allows (an empty
    archive always passes), and, if it has any regular file, the declared
    sizes of its regular files add up to no more than [max_extract_size].
    Members that are not regular files never count towards the size. (With
    a negative size the sum says less than the running total the program
    tests: see the archive declaring 5 and -5 bytes under a ceiling of
    3.) *)
Theorem list_succeeds_iff (self : t) (tar_path : string) (tar : Tar.stream)
  (s : state) :
  nonneg (Stream.members tar) ->
  fst (list_archive self tar_path tar s) = Return true <->
  Stream.ending tar = None /\ More.admitted self (Stream.members tar).
Proof.
  intros Hn. rewrite <- (passes_all_admitted _ _ Hn).
  apply list_archive_true_iff.
Qed.

(** X2. An archive that breaks after members that are within the ceilings
    and declare no negative size: every member read before the break is
    listed, then comes the one error line - [Error reading tar file: ...]
    for a [ReadError], [Unexpected error: ...] for anything else - then
    [False]; no totals are printed. *)
Theorem list_of_broken_archive (self : t) (tar_path : string)
  (ms : list Tar.TarInfo) (e : Py.exn) (s : state) :
  nonneg ms ->
  More.admitted self ms ->
  list_archive self tar_path (Tar.feed ms (Tar.Broken e)) s
  = (Return false,
     Report.say s
       (Report.list_header tar_path ++ map member_line ms
        ++ [if Py.is_ReadError e
            then "Error reading tar file: " ++ Py.str e
            else "Unexpected error: " ++ Py.str e])).
Proof.
  intros Hn Hp. apply (passes_all_admitted _ _ Hn) in Hp.
  rewrite list_archive_run.
  rewrite (list_loop_feed _ _ _ _ _ Hp). cbn [list_loop]. unfold raise.
  say_norm.
Qed.

Lemma passes_mono (self self' : t) (tot : totals) (m : Tar.TarInfo) :
  max_files self <= max_files self' ->
  max_extract_size self <= max_extract_size self' ->
  passes self tot m -> passes self' tot m.
Proof.
  intros Hf Hs [Hc Hz]. split; [lia|]. intros H. specialize (Hz H). lia.
Qed.

Lemma list_loop_mono (self self' : t) (tar : Tar.stream) (tot t1 : totals)
  (s s1 : state) :
  max_files self <= max_files self' ->
  max_extract_size self <= max_extract_size self' ->
  list_loop self tar tot s = (Return t1, s1) ->
  list_loop self' tar tot s = (Return t1, s1).
Proof.
  intros Hf Hs. revert tot s.
  induction tar as [|e|m rest IH]; intros tot s; simpl; [done|done|].
  unfold bind at 1 3, pure at 1 2.
  destruct (check_limits self tot m) as [tot'|e] eqn:C; [|discriminate].
  apply check_limits_Return in C as [Hp ->].
  rewrite (check_limits_passes _ _ _ (passes_mono _ _ _ _ Hf Hs Hp)).
  unfold bind at 1 2, print at 1 2. apply IH.
Qed.

Lemma extract_loop_mono (cwd : list string) (self self' : t)
  (root : PurePath.t) (tar : Tar.stream) (tot t1 : totals) (s s1 : state) :
  max_files self <= max_files self' ->
  max_extract_size self <= max_extract_size self' ->
  extract_loop cwd self root tar tot s = (Return t1, s1) ->
  extract_loop cwd self' root tar tot s = (Return t1, s1).
Proof.
  intros Hf Hs. revert tot s.
  induction tar as [|e|m rest IH]; intros tot s; simpl; [done|done|].
  unfold bind at 1 3, pure at 1 2.
  destruct (check_limits self tot m) as [tot'|e] eqn:C; [|discriminate].
  apply check_limits_Return in C as [Hp ->].
  rewrite (check_limits_passes _ _ _ (passes_mono _ _ _ _ Hf Hs Hp)).
  unfold bind at 1 2.
  destruct (extract_member cwd root m s) as [[[]|e] s']; [|discriminate].
  apply IH.
Qed.

(** X3. Raising a ceiling never turns a success into a failure: a listing or
    an extraction that returns [True] returns [True] under any higher
    ceilings, with the same lines printed and the same tree left. *)
Theorem raising_the_ceilings (cwd : list string) (self self' : t)
  (tar_path : string) (tar : Tar.stream) (extract_to : option string)
  (s : state) :
  max_files self <= max_files self' ->
  max_extract_size self <= max_extract_size self' ->
  (fst (list_archive self tar_path tar s) = Return true ->
   list_archive self' tar_path tar s = list_archive self tar_path tar s)
  /\ (fst (extract_archive cwd self tar_path tar extract_to s) = Return true ->
      extract_archive cwd self' tar_path tar extract_to s
      = extract_archive cwd self tar_path tar extract_to s).
Proof.
  intros Hf Hs. split.
  - rewrite !list_archive_run.
    destruct (list_loop self tar zero _) as [[tot|e] s1] eqn:L;
      [|discriminate].
    intros _. by rewrite (list_loop_mono _ _ _ _ _ _ _ Hf Hs L).
  - rewrite !extract_archive_run. cbv zeta.
    destruct (Fs.mkdir cwd false true _ (fs s)) as [e|fs1]; [discriminate|].
    destruct (extract_loop cwd self _ tar zero _) as [[tot|e] s1] eqn:L;
      [|discriminate].
    intros _. by rewrite (extract_loop_mono _ _ _ _ _ _ _ _ _ Hf Hs L).
Qed.

(** X4. Listing is a dry run for the ceilings and for the state of the
    archive: whenever an extraction returns [True], the listing of the same
    archive under the same ceilings returns [True], from any state. So an
    archive whose listing returns [False] cannot be extracted with
    success. *)
Theorem listing_foretells_extraction (cwd : list string) (self : t)
  (tar_path : string) (tar : Tar.stream) (extract_to : option string)
  (s s0 : state) :
  fst (extract_archive cwd self tar_path tar extract_to s) = Return true ->
  fst (list_archive self tar_path tar s0) = Return true.
Proof.
  intros [He Hp]%extract_archive_true_inv. by apply list_archive_true_iff.
Qed.

Lemma extract_member_stdout (cwd : list string) (root : PurePath.t)
  (m : Tar.TarInfo) (s s' : state) :
  extract_member cwd root m s = (Return tt, s') ->
  stdout s' = (stdout s ++ More.extract_lines m)%list.
Proof.
  rewrite extract_member_run. cbv zeta.
  destruct (Fs.mkdir cwd true true _ (fs s)) as [e|fs1]; [discriminate|].
  destruct (Tar.isfile m).
  - destruct (Fs.open_wb cwd _ fs1) as [e|[dst fs2]]; [discriminate|].
    destruct (Tar.read m) as [e|content]; [discriminate|]. by intros [= <-].
  - destruct (Tar.isdir m).
    + destruct (Fs.mkdir cwd false true _ fs1) as [e'|fs2]; [discriminate|].
      by intros [= <-].
    + by intros [= <-].
Qed.

Lemma extract_loop_stdout (cwd : list string) (self : t) (root : PurePath.t)
  (tar : Tar.stream) (tot t1 : totals) (s s1 : state) :
  extract_loop cwd self root tar tot s = (Return t1, s1) ->
  stdout s1
  = (stdout s ++ flat_map More.extract_lines (Stream.members tar))%list
  /\ t1 = after tot (Stream.members tar).
Proof.
  revert tot s. induction tar as [|e|m rest IH]; intros tot s; simpl.
  - unfold ret. intros [= <- <-]. by rewrite app_nil_r.
  - unfold raise. discriminate.
  - unfold bind at 1, pure at 1.
    destruct (check_limits self tot m) as [tot'|e] eqn:C; [|discriminate].
    apply check_limits_Return in C as [Hp ->]. unfold bind at 1.
    destruct (extract_member cwd root m s) as [[[]|e] s'] eqn:E;
      [|discriminate].
    intros H. apply IH in H as [H1 H2].
    rewrite H1, (extract_member_stdout _ _ _ _ _ E), <- app_assoc. done.
Qed.

(** X5. The report of an extraction that returns [True] is exactly: the two
    header lines; for each member in archive order, [Extracted: name] if it
    is a regular file, [Created directory: name] if it is a directory, and
    no line at all otherwise; the rule; and
    [Extraction complete: N files, B bytes], where [N] counts the members of
    every kind and [B] adds up the declared sizes of the regular files. *)
Theorem report_of_an_extraction (cwd : list string) (self : t)
  (tar_path : string) (tar : Tar.stream) (extract_to : option string)
  (s s1 : state) :
  extract_archive cwd self tar_path tar extract_to s = (Return true, s1) ->
  stdout s1
  = (stdout s
     ++ Report.extract_header tar_path (extract_path_of tar_path extract_to)
     ++ flat_map More.extract_lines (Stream.members tar)
     ++ Report.extract_summary
          {| file_count := Z.of_nat (length (Stream.members tar));
             total_size := Spec.file_bytes (Stream.members tar) |})%list.
Proof.
  rewrite extract_archive_run. cbv zeta.
  destruct (Fs.mkdir cwd false true _ (fs s)) as [e|fs1]; [discriminate|].
  destruct (extract_loop cwd self _ tar zero _) as [[tot|e] s0] eqn:L;
    [|discriminate].
  intros [= <-]. apply extract_loop_stdout in L as [L ->].
  unfold Report.say; cbn [stdout] in *. rewrite L, <- !app_assoc.
  destruct (after_totals (Stream.members tar) zero) as [Ec Es].
  destruct (after zero (Stream.members tar)) as [c z]; simpl in *.
  subst c z. by rewrite <- !app_assoc.
Qed.

(** X15. No rollback: when reading the archive fails between two members,
    after members that extract (their data were read and written),
    [extract_archive] returns [False] and leaves exactly the tree that
    extracting those members alone leaves; the report is the header, the
    lines of those members and one error line -
    [Error extracting tar file: ...] for a [ReadError],
    [Unexpected error: ...] for anything else. (An archive that is cut
    inside the data of a member is another matter, told next.) *)
Theorem broken_archive_leaves_what_was_extracted (cwd : list string)
  (self : t) (tar_path : string) (ms : list Tar.TarInfo) (e : Py.exn)
  (extract_to : option string) (s s1 : state) :
  extract_archive cwd self tar_path (Tar.archive ms) extract_to s
  = (Return true, s1) ->
  extract_archive cwd self tar_path (Tar.feed ms (Tar.Broken e)) extract_to s
  = (Return false,
     {| fs := fs s1;
        stdout :=
          stdout s
          ++ Report.extract_header tar_path
               (extract_path_of tar_path extract_to)
          ++ flat_map More.extract_lines ms
          ++ [if Py.is_ReadError e
              then "Error extracting tar file: " ++ Py.str e
              else "Unexpected error: " ++ Py.str e] |}).
Proof.
  rewrite !extract_archive_run. cbv zeta.
  destruct (Fs.mkdir cwd false true _ (fs s)) as [e0|fs1]; [discriminate|].
  destruct (extract_loop cwd self _ (Tar.archive ms) zero _)
    as [[tot|e0] s0] eqn:L; [|discriminate].
  intros [= <-]. rewrite (extract_loop_feed _ _ _ _ _ _ _ _ _ L).
  cbn [extract_loop]. unfold raise.
  apply extract_loop_stdout in L as [L _].
  unfold Tar.archive in L.
  destruct (members_feed ms Tar.Eof) as [Em _]. rewrite Em in L.
  cbn [Stream.members] in L. rewrite app_nil_r in L.
  unfold Report.say, Report.extract_error in *. cbn [fs stdout] in *.
  by rewrite L, <- !app_assoc.
Qed.

(** X17. An archive that is cut short inside the data of a regular file,
    after members that extract: the file of that member is opened before
    its data are read, so it is left empty - created if it was not there,
    emptied of what it held if it was - and no [Extracted] line is printed
    for it; [extract_archive] returns [False] with the error of the read as
    its last line, and what the earlier members left stays. *)
Theorem cut_member_leaves_an_empty_file (cwd : list string) (self : t)
  (tar_path : string) (ms : list Tar.TarInfo) (m : Tar.TarInfo)
  (rest : Tar.stream) (e : Py.exn) (extract_to : option string)
  (s s1 : state) (A A0 : Fs.tree) (r : list string) :
  extract_archive cwd self tar_path (Tar.archive ms) extract_to s
  = (Return true, s1) ->
  passes self (after zero ms) m ->
  Tar.isfile m = true ->
  Tar.damage m = Some e ->
  let safe_path :=
    PurePath.joinpath (extract_path_of tar_path extract_to) (Tar.name m) in
  Fs.mkdir cwd true true (PurePath.parent safe_path) (fs s1) = inr A ->
  Fs.open_wb cwd safe_path A = inr (r, A0) ->
  extract_archive cwd self tar_path (Tar.feed ms (Tar.Entry m rest))
    extract_to s
  = (Return false,
     {| fs := A0;
        stdout :=
          stdout s
          ++ Report.extract_header tar_path
               (extract_path_of tar_path extract_to)
          ++ flat_map More.extract_lines ms
          ++ [if Py.is_ReadError e
              then "Error extracting tar file: " ++ Py.str e
              else "Unexpected error: " ++ Py.str e] |})
  /\ Fs.resolve cwd A0 safe_path = inr r
  /\ A0 !! r = Some (Fs.File [])
  /\ forall p : list string,
       p <> r ->
       A0 !! p = fs s1 !! p
       \/ (fs s1 !! p = None /\ A0 !! p = Some Fs.Dir).
Proof.
  intros H Hp Hf Hd. cbv zeta. intros M W. revert H.
  rewrite !extract_archive_run. cbv zeta.
  destruct (Fs.mkdir cwd false true _ (fs s)) as [e0|fs1]; [discriminate|].
  destruct (extract_loop cwd self _ (Tar.archive ms) zero _)
    as [[tot|e0] s0] eqn:L; [|discriminate].
  intros [= <-]. cbn [Report.say fs] in M.
  rewrite (extract_loop_feed _ _ _ _ _ _ _ _ _ L). cbn [extract_loop].
  pose proof (extract_loop_archive_Return _ _ _ _ _ _ _ _ L) as [_ ->].
  unfold bind at 1, pure at 1. rewrite (check_limits_passes _ _ _ Hp).
  unfold bind at 1. rewrite extract_member_run. cbv zeta.
  rewrite M, Hf, W. unfold Tar.read. rewrite Hd.
  apply extract_loop_stdout in L as [L _].
  unfold Tar.archive in L.
  destruct (members_feed ms Tar.Eof) as [Em _]. rewrite Em in L.
  cbn [Stream.members] in L. rewrite app_nil_r in L.
  pose proof (mkdir_adds _ _ _ _ _ _ M) as HA.
  apply open_wb_inv in W as (R & Hr & ->).
  split; [|split; [|split]].
  - unfold Report.say, Report.extract_error in *. cbn [fs stdout] in *.
    by rewrite L, <- !app_assoc.
  - unfold Fs.resolve in *. eapply walk_keeps_dirs; [|exact R].
    by apply insert_file_keeps.
  - by rewrite lookup_insert_eq.
  - intros p Hne. rewrite lookup_insert_ne by done. apply HA.
Qed.

(** [out/a] holds [old content]; the archive is cut inside the data of its
    only member, the regular file [a]. *)
Lemma cut_member_leaves_an_empty_file_witness :
  let tree := <[ ["srv"; "out"; "a"] := Fs.File (Sample.bytes "old content") ]>
                Sample.tree1 in
  extract_archive Sample.cwd Sample.processor "cut.tar"
    (Tar.Entry (Sample.cut "a" 2000)
       (Tar.Broken (Py.ReadError "unexpected end of data")))
    (Some "out") {| fs := tree; stdout := [] |}
  = (Return false,
     {| fs := <[ ["srv"; "out"; "a"] := Fs.File [] ]> tree;
        stdout :=
          ["Extracting cut.tar to out"; Fmt.rule;
           "Error extracting tar file: unexpected end of data"] |}).
Proof.
  cbv zeta.
  refine (proj1 (cut_member_leaves_an_empty_file Sample.cwd Sample.processor
                   "cut.tar" [] (Sample.cut "a" 2000)
                   (Tar.Broken (Py.ReadError "unexpected end of data"))
                   (Py.ReadError "unexpected end of data") (Some "out")
                   {| fs := <[ ["srv"; "out"; "a"]
                               := Fs.File (Sample.bytes "old content") ]>
                              Sample.tree1;
                      stdout := [] |}
                   (snd (extract_archive Sample.cwd Sample.processor
                           "cut.tar" (Tar.archive []) (Some "out")
                           {| fs := <[ ["srv"; "out"; "a"]
                                       := Fs.File
                                            (Sample.bytes "old content") ]>
                                      Sample.tree1;
                              stdout := [] |}))
                   (<[ ["srv"; "out"; "a"]
                       := Fs.File (Sample.bytes "old content") ]>
                      Sample.tree1)
                   (<[ ["srv"; "out"; "a"] := Fs.File [] ]>
                      (<[ ["srv"; "out"; "a"]
                          := Fs.File (Sample.bytes "old content") ]>
                         Sample.tree1))
                   ["srv"; "out"; "a"] _ _ _ _ _ _)).
  - vm_compute. reflexivity.
  - split; [|intros _]; vm_compute; discriminate.
  - reflexivity.
  - reflexivity.
  - vm_compute. reflexivity.
  - vm_compute. reflexivity.
Defined.

(** A regular file and a directory, then a damaged header. *)
Lemma broken_archive_leaves_what_was_extracted_witness :
  let e := Py.ReadError "bad checksum" in
  let ms := [Sample.regular "a" "xy"; Sample.directory "d"] in
  let r := extract_archive Sample.cwd Sample.processor "a.tar"
             (Tar.feed ms (Tar.Broken e)) (Some "out") Sample.start in
  fst r = Return false
  /\ fs (snd r)
     = fs (snd (extract_archive Sample.cwd Sample.processor "a.tar"
                  (Tar.archive ms) (Some "out") Sample.start))
  /\ stdout (snd r)
     = ["Extracting a.tar to out"; Fmt.rule; "Extracted: a";
        "Created directory: d"; "Error extracting tar file: bad checksum"].
Proof.
  cbv zeta.
  rewrite (broken_archive_leaves_what_was_extracted Sample.cwd
             Sample.processor "a.tar"
             [Sample.regular "a" "xy"; Sample.directory "d"]
             (Py.ReadError "bad checksum") (Some "out") Sample.start
             (snd (extract_archive Sample.cwd Sample.processor "a.tar"
                     (Tar.archive [Sample.regular "a" "xy";
                                   Sample.directory "d"])
                     (Some "out") Sample.start)));
    [|vm_compute; reflexivity].
  split; [reflexivity|]. split; reflexivity.
Defined.

(** An archive cut short inside the data of its first member, a regular
    file of 2000 bytes: the member is listed, and reading on fails. *)
Lemma list_of_broken_archive_witness :
  list_archive Sample.processor "cut.tar"
    (Tar.feed [Sample.cut "a" 2000]
       (Tar.Broken (Py.ReadError "unexpected end of data")))
    Sample.start
  = (Return false,
     Report.say Sample.start
       ["Listing contents of: cut.tar"; Fmt.rule;
        "f a                                              2000 bytes";
        "Error reading tar file: unexpected end of data"]).
Proof.
  refine (list_of_broken_archive Sample.processor "cut.tar"
            [Sample.cut "a" 2000]
            (Py.ReadError "unexpected end of data") Sample.start _ _).
  - intros m [<-|[]] _. vm_compute. discriminate.
  - split; [right|intros _]; vm_compute; discriminate.
Defined.

(** Three members under ceilings of 100 bytes and 2 members: one too many,
    and the listing returns [False]. *)
Lemma list_succeeds_iff_witness :
  let ms := [Sample.regular "a" "x"; Sample.directory "d";
             Sample.regular "c" "z"] in
  fst (list_archive Sample.processor "a.tar" (Tar.archive ms) Sample.start)
  = Return true
  /\ fst (list_archive Sample.small "a.tar" (Tar.archive ms) Sample.start)
     <> Return true.
Proof.
  cbv zeta.
  assert (Hn : nonneg
                 (Stream.members
                    (Tar.archive [Sample.regular "a" "x";
                                  Sample.directory "d";
                                  Sample.regular "c" "z"]))).
  { intros m [<-|[<-|[<-|[]]]] _; vm_compute; discriminate. }
  split.
  - apply (list_succeeds_iff Sample.processor "a.tar" _ Sample.start Hn).
    split; [reflexivity|]. split; [right|intros _]; vm_compute; discriminate.
  - intros H.
    apply (list_succeeds_iff Sample.small "a.tar" _ Sample.start Hn) in H.
    destruct H as [_ [[H|H] _]]; [discriminate H|]. vm_compute in H.
    by apply H.
Defined.

(** From ceilings of 100 bytes and 2 members to the defaults. *)
Lemma raising_the_ceilings_witness :
  let tar := Tar.archive [Sample.regular "a" "x"; Sample.directory "d"] in
  list_archive Sample.processor "a.tar" tar Sample.start
  = list_archive Sample.small "a.tar" tar Sample.start
  /\ extract_archive Sample.cwd Sample.processor "a.tar" tar (Some "out")
       Sample.start
     = extract_archive Sample.cwd Sample.small "a.tar" tar (Some "out")
         Sample.start.
Proof.
  cbv zeta.
  destruct (raising_the_ceilings Sample.cwd Sample.small Sample.processor
              "a.tar"
              (Tar.archive [Sample.regular "a" "x"; Sample.directory "d"])
              (Some "out") Sample.start) as [H1 H2].
  - vm_compute. discriminate.
  - vm_compute. discriminate.
  - split; [apply H1|apply H2]; vm_compute; reflexivity.
Defined.

(** An archive extracted to [out], then listed from the tree it left. *)
Lemma listing_foretells_extraction_witness :
  let tar := Tar.archive [Sample.regular "a" "x"; Sample.directory "d"] in
  fst (list_archive Sample.processor "a.tar" tar
         (snd (extract_archive Sample.cwd Sample.processor "a.tar" tar
                 (Some "out") Sample.start)))
  = Return true.
Proof.
  cbv zeta.
  apply (listing_foretells_extraction Sample.cwd Sample.processor "a.tar"
           (Tar.archive [Sample.regular "a" "x"; Sample.directory "d"])
           (Some "out") Sample.start).
  vm_compute. reflexivity.
Defined.

(** A regular file, a directory and a symbolic link. *)
Lemma report_of_an_extraction_witness :
  stdout
    (snd (extract_archive Sample.cwd Sample.processor "a.tar"
            (Tar.archive [Sample.regular "a" "xy"; Sample.directory "d";
                          Sample.symlink "l" "a"])
            (Some "out") Sample.start))
  = ["Extracting a.tar to out"; Fmt.rule; "Extracted: a";
     "Created directory: d"; Fmt.rule;
     "Extraction complete: 3 files, 2 bytes"].
Proof.
  refine (report_of_an_extraction Sample.cwd Sample.processor "a.tar"
            (Tar.archive [Sample.regular "a" "xy"; Sample.directory "d";
                          Sample.symlink "l" "a"])
            (Some "out") Sample.start _ _).
  vm_compute. reflexivity.
Defined.

End WalkMore.

(** * Beyond the claims: what extraction does to the tree *)
Module TreeMore.
Import Run SecureTarProcessor Totals TotalsFacts Inv FsFacts WalkFacts.

Lemma evolved_refl (ms : list Tar.TarInfo) (fs : Fs.tree) :
  More.evolved ms fs fs.
Proof. intros p. split; [done|]. split; [by eauto|by left]. Qed.

Lemma evolved_trans (ms : list Tar.TarInfo) (fs1 fs2 fs3 : Fs.tree) :
  More.evolved ms fs1 fs2 -> More.evolved ms fs2 fs3 ->
  More.evolved ms fs1 fs3.
Proof.
  intros H12 H23 p. destruct (H12 p) as (A1 & B1 & C1).
  destruct (H23 p) as (A2 & B2 & C2). split; [auto|]. split.
  - intros d E. destruct (B1 d E) as [d' E']. by eapply B2.
  - intros d E. destruct (C2 d E) as [E'|M]; [auto|by right].
Qed.

Lemma evolved_weaken (ms ms' : list Tar.TarInfo) (fs fs' : Fs.tree) :
  (forall m : Tar.TarInfo, In m ms -> In m ms') ->
  More.evolved ms fs fs' -> More.evolved ms' fs fs'.
Proof.
  intros Hin H p. destruct (H p) as (A & B & C). split; [done|].
  split; [done|]. intros d E. destruct (C d E) as [E'|(m & Hm & M)];
    [by left|]. right. exists m. split; [by apply Hin|done].
Qed.

Lemma adds_dirs_evolved (ms : list Tar.TarInfo) (fs fs' : Fs.tree) :
  adds_dirs fs fs' -> More.evolved ms fs fs'.
Proof.
  intros H p. destruct (H p) as [E|[E1 E2]].
  - rewrite E. split; [done|]. split; [by eauto|by left].
  - rewrite E1, E2. split; [done|]. split; discriminate.
Qed.

Section WithCwd.
Variable cwd : list string.

(** The file of a regular-file member, opened, and filled when the data of
    the member can be read. *)
Lemma file_evolved (m : Tar.TarInfo) (r : list string) (fs : Fs.tree) :
  Tar.isfile m = true -> fs !! r <> Some Fs.Dir ->
  More.evolved [m] fs (<[r := Fs.File (More.left_by m)]> fs).
Proof.
  intros Hf Hr q. destruct (decide (r = q)) as [<-|Hne].
  - rewrite lookup_insert_eq. split; [done|]. split; [by eauto|].
    intros d [= <-]. right. exists m. split; [by left|done].
  - rewrite lookup_insert_ne by done. split; [done|].
    split; [by eauto|by left].
Qed.

(** Whatever happens to a member, the tree evolves, and by this member
    only. *)
Lemma extract_member_evolved (root : PurePath.t) (m : Tar.TarInfo)
  (s : state) :
  More.evolved [m] (fs s) (fs (snd (extract_member cwd root m s))).
Proof.
  rewrite extract_member_run. cbv zeta.
  destruct (Fs.mkdir cwd true true _ (fs s)) as [e|A] eqn:M;
    cbn [fs snd]; [apply evolved_refl|].
  apply mkdir_adds, (adds_dirs_evolved [m]) in M.
  destruct (Tar.isfile m) eqn:Hf.
  - destruct (Fs.open_wb cwd _ A) as [e|[dst A0]] eqn:W; cbn [fs snd];
      [done|].
    apply open_wb_inv in W as (_ & Hr & ->).
    pose proof (file_evolved m dst A Hf Hr) as E. unfold More.left_by in E.
    destruct (Tar.read m) as [e|content]; cbn [fs snd];
      rewrite ?write_open; by eapply evolved_trans.
  - destruct (Tar.isdir m); cbn [fs snd]; [|done].
    destruct (Fs.mkdir cwd false true _ A) as [e'|A1] eqn:D; cbn [fs snd];
      [done|].
    eapply evolved_trans; [done|]. by eapply adds_dirs_evolved, mkdir_adds.
Qed.

Lemma extract_loop_evolved (self : t) (root : PurePath.t) (tar : Tar.stream)
  (tot : totals) (s : state) :
  More.evolved (Stream.members tar) (fs s)
    (fs (snd (extract_loop cwd self root tar tot s))).
Proof.
  revert tot s. induction tar as [|e|m rest IH]; intros tot s; simpl;
    try apply evolved_refl.
  unfold bind at 1, pure at 1.
  destruct (check_limits self tot m) as [tot'|e]; simpl;
    [|apply evolved_refl].
  unfold bind at 1.
  pose proof (extract_member_evolved root m s) as Hm.
  destruct (extract_member cwd root m s) as [[[]|e] s1]; simpl in *.
  - eapply evolved_trans.
    + eapply evolved_weaken; [|exact Hm]. intros m' [<-|[]]. by left.
    + eapply evolved_weaken; [|apply IH]. intros m' H. by right.
  - eapply evolved_weaken; [|exact Hm]. intros m' [<-|[]]. by left.
Qed.

(** X7. Whatever the archive and however [extract_archive] ends, it deletes
    nothing and changes the kind of nothing: a directory is still a
    directory, a regular file is still a regular file. And every regular
    file of the tree afterwards either holds what it held before, or is
    what a regular-file member of the archive leaves: the content of the
    member, whole, or nothing at all when the data of the member could not
    be read (the file is opened, so emptied, before they are). *)
Theorem extraction_only_adds_and_writes_members (self : t)
  (tar_path : string) (tar : Tar.stream) (extract_to : option string)
  (s : state) :
  More.evolved (Stream.members tar) (fs s)
    (fs (snd (extract_archive cwd self tar_path tar extract_to s))).
Proof.
  rewrite extract_archive_run. cbv zeta.
  destruct (Fs.mkdir cwd false true _ (fs s)) as [e|fs1] eqn:M;
    [apply evolved_refl|].
  apply mkdir_adds, (adds_dirs_evolved (Stream.members tar)) in M.
  pose proof (extract_loop_evolved self (extract_path_of tar_path extract_to)
                tar zero
                (Report.say {| fs := fs1; stdout := stdout s |}
                   (Report.extract_header tar_path
                      (extract_path_of tar_path extract_to)))) as L.
  destruct (extract_loop cwd self _ tar zero _) as [[tot|e] s1];
    cbn [fs snd Report.say] in *; by eapply evolved_trans.
Qed.

(** X8. A regular-file member that is dealt with without error is on disk,
    whole, at the node its joined path leads to - wherever that is - and is
    reported as extracted. Everywhere else the tree is as it was, but for
    directories made where there was nothing. *)
Theorem regular_member_is_written (root : PurePath.t) (m : Tar.TarInfo)
  (s s' : state) :
  Tar.isfile m = true ->
  extract_member cwd root m s = (Return tt, s') ->
  let safe_path := PurePath.joinpath root (Tar.name m) in
  exists r : list string,
    Fs.resolve cwd (fs s') safe_path = inr r
    /\ fs s' !! r = Some (Fs.File (Tar.data m))
    /\ stdout s' = (stdout s ++ [("Extracted: " ++ Tar.name m)%string])%list
    /\ forall p : list string,
         p <> r ->
         fs s' !! p = fs s !! p
         \/ (fs s !! p = None /\ fs s' !! p = Some Fs.Dir).
Proof.
  intros Hf. rewrite extract_member_run. cbv zeta. rewrite Hf.
  destruct (Fs.mkdir cwd true true _ (fs s)) as [e|A] eqn:M; [discriminate|].
  apply mkdir_adds in M.
  destruct (Fs.open_wb cwd _ A) as [e|[r A0]] eqn:W; [discriminate|].
  apply open_wb_inv in W as (R & Hr & ->).
  unfold Tar.read. destruct (Tar.damage m) as [e|]; [discriminate|].
  intros [= <-]. cbn [fs stdout]. rewrite write_open. exists r. split.
  - unfold Fs.resolve in *. eapply walk_keeps_dirs; [|exact R].
    by apply insert_file_keeps.
  - split; [by rewrite lookup_insert_eq|]. split.
    + unfold More.extract_lines. by rewrite Hf.
    + intros p Hp. rewrite lookup_insert_ne by done. apply M.
Qed.

(** X9. A directory member that is dealt with without error leaves a
    directory at its joined path and is reported as created; the tree has
    only gained directories, so a directory that was there already is
    accepted and keeps what it holds. *)
Theorem directory_member_is_made (root : PurePath.t) (m : Tar.TarInfo)
  (s s' : state) :
  Tar.isfile m = false -> Tar.isdir m = true ->
  extract_member cwd root m s = (Return tt, s') ->
  let safe_path := PurePath.joinpath root (Tar.name m) in
  Fs.is_dir cwd safe_path (fs s') = true
  /\ adds_dirs (fs s) (fs s')
  /\ stdout s'
     = (stdout s ++ [("Created directory: " ++ Tar.name m)%string])%list.
Proof.
  intros Hf Hd. unfold extract_member. cbv zeta. run_unfold.
  rewrite Hf, Hd.
  destruct (Fs.mkdir cwd true true _ (fs s)) as [e|fs1] eqn:M; [discriminate|].
  apply mkdir_adds in M. cbn [fs stdout].
  match goal with
  | |- context [Fs.mkdir ?a ?b ?c ?d ?e] =>
      destruct (Fs.mkdir a b c d e) as [e'|fs2] eqn:D
  end; [discriminate|].
  intros [= <-]. cbn [fs stdout]. split; [by eapply mkdir_is_dir|].
  split; [|done]. eapply adds_dirs_trans; [done|]. by eapply mkdir_adds.
Qed.

End WithCwd.

(** The regular file [new/a] under [out]: the directory [new] is made on
    the way. *)
Lemma regular_member_is_written_witness :
  let s' := snd (extract_member Sample.cwd (PurePath.of_string "out")
                   (Sample.regular "new/a" "hi") Sample.ready) in
  exists r : list string,
    Fs.resolve Sample.cwd (fs s') (PurePath.of_string "out/new/a") = inr r
    /\ fs s' !! r = Some (Fs.File (Sample.bytes "hi"))
    /\ stdout s' = ["Extracted: new/a"].
Proof.
  cbv zeta.
  destruct (regular_member_is_written Sample.cwd (PurePath.of_string "out")
              (Sample.regular "new/a" "hi") Sample.ready
              (snd (extract_member Sample.cwd (PurePath.of_string "out")
                      (Sample.regular "new/a" "hi") Sample.ready)))
    as (r & H1 & H2 & H3 & _).
  - reflexivity.
  - vm_compute. reflexivity.
  - exists r. split; [exact H1|]. split; [exact H2|exact H3].
Defined.

(** The directory [new/d] under [out]. *)
Lemma directory_member_is_made_witness :
  let s' := snd (extract_member Sample.cwd (PurePath.of_string "out")
                   (Sample.directory "new/d") Sample.ready) in
  Fs.is_dir Sample.cwd (PurePath.of_string "out/new/d") (fs s') = true
  /\ adds_dirs Sample.tree1 (fs s')
  /\ stdout s' = ["Created directory: new/d"].
Proof.
  cbv zeta.
  refine (directory_member_is_made Sample.cwd (PurePath.of_string "out")
            (Sample.directory "new/d") Sample.ready
            (snd (extract_member Sample.cwd (PurePath.of_string "out")
                    (Sample.directory "new/d") Sample.ready)) _ _ _).
  - reflexivity.
  - reflexivity.
  - vm_compute. reflexivity.
Defined.

End TreeMore.

(** * Beyond the claims: the default destination *)
Module NameMore.
Import SecureTarProcessor.

Lemma append_length (a b : string) :
  String.length (a ++ b) = (String.length a + String.length b)%nat.
Proof. induction a as [|c a IH]; simpl; [done|]. by rewrite IH. Qed.

Lemma append_empty (a : string) : a ++ "" = a.
Proof.
  induction a as [|x a IH]; [reflexivity|].
  change (String x (a ++ "") = String x a). by f_equal.
Qed.

Lemma append_snoc (a : string) (c : ascii) (b : string) :
  (a ++ String c EmptyString) ++ b = a ++ String c b.
Proof.
  induction a as [|x a IH]; [reflexivity|].
  change (String x ((a ++ String c EmptyString) ++ b)
          = String x (a ++ String c b)).
  by f_equal.
Qed.

Lemma no_slash_app (a b : string) :
  More.no_slash (a ++ b) = More.no_slash a && More.no_slash b.
Proof.
  induction a as [|c a IH]; simpl; [done|]. by rewrite IH, andb_assoc.
Qed.

(** The components of a path hold no slash. *)
Lemma split_go_no_slash (s cur : string) :
  More.no_slash cur = true ->
  Forall (fun c => More.no_slash c = true) (PurePath.split_go s cur).
Proof.
  revert cur. induction s as [|c s IH]; intros cur Hc; simpl.
  - by constructor.
  - destruct (Ascii.eqb c "/") eqn:E.
    + constructor; [done|]. by apply IH.
    + apply IH. rewrite no_slash_app, Hc. simpl. by rewrite E.
Qed.

(** A string without a slash is one component. *)
Lemma split_go_one (s cur : string) :
  More.no_slash s = true -> PurePath.split_go s cur = [cur ++ s].
Proof.
  revert cur. induction s as [|c s IH]; intros cur; simpl.
  - intros _. by rewrite append_empty.
  - intros [Hc Hs]%andb_true_iff. apply negb_true_iff in Hc. rewrite Hc.
    by rewrite (IH _ Hs), append_snoc.
Qed.

Lemma substring_no_slash (s : string) (n k : nat) :
  More.no_slash s = true -> More.no_slash (String.substring n k s) = true.
Proof.
  revert n k. induction s as [|c s IH]; intros n k; simpl.
  - by destruct n, k.
  - intros [Hc Hs]%andb_true_iff. destruct n as [|n].
    + destruct k as [|k]; simpl; [done|]. by rewrite Hc, IH.
    + by apply IH.
Qed.

Lemma stem_no_slash (p : string) :
  More.no_slash (PurePath.stem (PurePath.of_string p)) = true.
Proof.
  assert (Hn : More.no_slash (PurePath.name (PurePath.of_string p)) = true).
  { unfold PurePath.name, PurePath.of_string, PurePath.split. simpl.
    assert (F : Forall (fun c => More.no_slash c = true)
                  (List.filter PurePath.keep_part
                     (PurePath.split_go p EmptyString))).
    { apply Forall_forall. intros c Hc.
      apply list_elem_of_In, filter_In in Hc as [Hc _].
      pose proof (split_go_no_slash p EmptyString eq_refl) as F.
      rewrite Forall_forall in F. by apply F, list_elem_of_In. }
    induction F as [|c l Hc F IH]; simpl; [done|].
    destruct l; [done|]. exact IH. }
  unfold PurePath.stem. cbv zeta.
  destruct (PurePath.rfind_dot _ 0) as [i|]; [|done].
  destruct (_ && _)%bool; [|done]. by apply substring_no_slash.
Qed.

Lemma no_slash_starts (w : string) :
  More.no_slash w = true -> PurePath.root_of w = PurePath.Relative.
Proof.
  unfold PurePath.root_of. destruct w as [|c w]; simpl; [done|].
  intros [Hc _]%andb_true_iff. apply negb_true_iff in Hc. by rewrite Hc.
Qed.

(** X10. When no destination is given, the destination is always one
    component, relative, named after the archive: the final component of the
    archive's path without its last suffix, followed by [_extracted]. Only
    the name of the archive counts, not the directory it is in, so the
    destination is made in the working directory. *)
Theorem default_destination_in_cwd (cwd : list string) (tar_path : string)
  (fs : Fs.tree) :
  let d := (PurePath.stem (PurePath.of_string tar_path) ++ "_extracted") in
  extract_path_of tar_path None = PurePath.mk PurePath.Relative [d]
  /\ (fs !! cwd = Some Fs.Dir ->
      Fs.resolve cwd fs (extract_path_of tar_path None)
      = inr (cwd ++ [d])%list).
Proof.
  cbv zeta. set (n := PurePath.stem (PurePath.of_string tar_path)).
  assert (Hs : More.no_slash (n ++ "_extracted") = true).
  { rewrite no_slash_app. unfold n. by rewrite stem_no_slash. }
  assert (Hl : forall x : string,
             (String.length x < 10)%nat -> n ++ "_extracted" <> x).
  { intros x Hx E. rewrite <- E, append_length in Hx. simpl in Hx. lia. }
  assert (K : PurePath.keep_part (n ++ "_extracted") = true).
  { unfold PurePath.keep_part.
    assert (E1 : String.eqb (n ++ "_extracted") "" = false).
    { apply String.eqb_neq, Hl. simpl. lia. }
    assert (E2 : String.eqb (n ++ "_extracted") "." = false).
    { apply String.eqb_neq, Hl. simpl. lia. }
    by rewrite E1, E2. }
  assert (E : extract_path_of tar_path None
              = PurePath.mk PurePath.Relative [n ++ "_extracted"]).
  { change (PurePath.of_string (n ++ "_extracted")
            = PurePath.mk PurePath.Relative [n ++ "_extracted"]).
    unfold PurePath.of_string, PurePath.split.
    rewrite (split_go_one _ EmptyString Hs), (no_slash_starts _ Hs).
    change (EmptyString ++ (n ++ "_extracted")) with (n ++ "_extracted").
    cbn [List.filter]. by rewrite K. }
  split; [exact E|]. intros Hc. rewrite E. unfold Fs.resolve. simpl.
  rewrite Hc. unfold Fs.step.
  assert (E3 : String.eqb (n ++ "_extracted") ".." = false).
  { apply String.eqb_neq, Hl. simpl. lia. }
  by rewrite E3.
Qed.

(** [dir/backup.tar.gz], extracted from [/srv]. *)
Lemma default_destination_in_cwd_witness :
  extract_path_of "dir/backup.tar.gz" None
  = PurePath.mk PurePath.Relative ["backup.tar_extracted"]
  /\ Fs.resolve Sample.cwd Sample.tree0
       (extract_path_of "dir/backup.tar.gz" None)
     = inr ["srv"; "backup.tar_extracted"].
Proof.
  destruct (default_destination_in_cwd Sample.cwd "dir/backup.tar.gz"
              Sample.tree0) as [H1 H2].
  split; [exact H1|]. apply H2. vm_compute. reflexivity.
Defined.

End NameMore.

(** * Beyond the claims: extracting again *)
Module AgainMore.
Import Run SecureTarProcessor Totals TotalsFacts Inv FsFacts WalkFacts.

Section WithCwd.
Variable cwd : list string.

(** A [mkdir] with [exist_ok] that has succeeded succeeds again, and makes
    nothing, in any tree that has kept the directories. *)
Lemma mkdir_again (parents : bool) (p : PurePath.t) (A A' B : Fs.tree) :
  Fs.mkdir cwd parents true p A = inr A' ->
  keeps_dirs A' B ->
  Fs.mkdir cwd parents true p B = inr B.
Proof.
  intros M K. apply mkdir_is_dir in M.
  apply (is_dir_keeps_dirs cwd _ _ _ K) in M. unfold Fs.is_dir in M.
  destruct (Fs.resolve cwd B p) as [e|r] eqn:R; [discriminate|].
  destruct (B !! r) as [[d|]|] eqn:E; try discriminate.
  unfold Fs.mkdir. destruct parents.
  - destruct p as [ab parts]. simpl.
    by eapply PlanFacts.mkdir_parents_exists.
  - destruct (PlanFacts.os_mkdir_exists cwd _ _ _ R E) as [M1 I1].
    unfold Fs.mkdir_once. by rewrite M1, I1.
Qed.

Lemma catching_up_adds (S X F B : Fs.tree) :
  adds_dirs S X -> More.catching_up S F B -> More.catching_up X F B.
Proof.
  intros HA HB p. destruct (HB p) as [E|[E [d Ed]]]; [by left|right].
  destruct (HA p) as [EA|[EA _]]; [|congruence].
  rewrite EA. split; [done|by exists d].
Qed.

(** The second run has every directory the first run had made by then. *)
Lemma catching_up_keeps (S X F B : Fs.tree) :
  adds_dirs S X -> keeps_dirs X F -> More.catching_up S F B ->
  keeps_dirs X B.
Proof.
  intros HA HK HB p Hp. destruct (HB p) as [E|[E [d Ed]]].
  - rewrite E. by apply HK.
  - destruct (HA p) as [EA|[EA _]]; congruence.
Qed.

(** A member the first run dealt with is dealt with again, with the same
    lines, and the second run stays behind the first. *)
Lemma extract_member_again (root : PurePath.t) (m : Tar.TarInfo)
  (s s' : state) (F B : Fs.tree) (out : list string) :
  extract_member cwd root m s = (Return tt, s') ->
  keeps_dirs (fs s') F ->
  (forall (p : list string) (d : list Byte.byte),
      fs s' !! p = Some (Fs.File d) ->
      exists d' : list Byte.byte, F !! p = Some (Fs.File d')) ->
  More.catching_up (fs s) F B ->
  exists B' : Fs.tree,
    extract_member cwd root m {| fs := B; stdout := out |}
    = (Return tt, {| fs := B'; stdout := out ++ More.extract_lines m |})
    /\ More.catching_up (fs s') F B'.
Proof.
  rewrite !extract_member_run. cbv zeta. cbn [fs stdout].
  destruct (Fs.mkdir cwd true true _ (fs s)) as [e|A] eqn:M; [discriminate|].
  pose proof (mkdir_adds _ _ _ _ _ _ M) as HA.
  destruct (Tar.isfile m) eqn:Hf.
  - destruct (Fs.open_wb cwd _ A) as [e|[r A0]] eqn:W; [discriminate|].
    apply open_wb_inv in W as (R & Hr & ->).
    destruct (Tar.read m) as [e|content]; [discriminate|].
    intros [= <-] HK HF HB. cbn [fs] in *. rewrite write_open in *.
    assert (KB : keeps_dirs A B).
    { eapply catching_up_keeps; [exact HA| |exact HB].
      eapply keeps_dirs_trans; [|exact HK]. by apply insert_file_keeps. }
    rewrite (mkdir_again _ _ _ _ _ M KB).
    assert (NB : B !! r <> Some Fs.Dir).
    { destruct (HF r content) as [d' Ed']; [by rewrite lookup_insert_eq|].
      destruct (HB r) as [E|[E [d Ed]]]; congruence. }
    assert (OB : Fs.open_wb cwd (PurePath.joinpath root (Tar.name m)) B
                 = inr (r, <[r := Fs.File []]> B)).
    { unfold Fs.open_wb, Fs.resolve in *.
      rewrite (walk_keeps_dirs _ _ _ _ _ KB R).
      destruct (B !! r) as [[d|]|]; congruence. }
    rewrite OB, write_open.
    exists (<[r := Fs.File content]> B). split; [done|].
    intros p. destruct (decide (r = p)) as [<-|Hne].
    + right. rewrite !lookup_insert_eq. eauto.
    + rewrite !lookup_insert_ne by done.
      by apply (catching_up_adds _ _ _ _ HA HB).
  - destruct (Tar.isdir m) eqn:Hd.
    + destruct (Fs.mkdir cwd false true _ A) as [e|A1] eqn:D; [discriminate|].
      intros [= <-] HK HF HB. cbn [fs] in *.
      pose proof (mkdir_adds _ _ _ _ _ _ D) as HD.
      assert (KB1 : keeps_dirs A1 B).
      { eapply catching_up_keeps; [|exact HK|exact HB].
        by eapply adds_dirs_trans. }
      assert (KB : keeps_dirs A B).
      { eapply keeps_dirs_trans; [|exact KB1]. by apply adds_dirs_keeps. }
      rewrite (mkdir_again _ _ _ _ _ M KB), (mkdir_again _ _ _ _ _ D KB1).
      exists B. split; [done|].
      eapply catching_up_adds; [|exact HB]. by eapply adds_dirs_trans.
    + intros [= <-] HK HF HB. cbn [fs] in *.
      assert (KB : keeps_dirs A B) by by eapply catching_up_keeps.
      rewrite (mkdir_again _ _ _ _ _ M KB).
      exists B. split; [done|]. by eapply catching_up_adds.
Qed.

Lemma extract_loop_again (self : t) (root : PurePath.t) (tar : Tar.stream)
  (tot t1 : totals) (s s1 : state) (B : Fs.tree) (out : list string) :
  extract_loop cwd self root tar tot s = (Return t1, s1) ->
  More.catching_up (fs s) (fs s1) B ->
  extract_loop cwd self root tar tot {| fs := B; stdout := out |}
  = (Return t1,
     {| fs := fs s1;
        stdout := out ++ flat_map More.extract_lines (Stream.members tar) |}).
Proof.
  revert tot s B out.
  induction tar as [|e|m rest IH]; intros tot s B out; simpl.
  - unfold ret. intros [= <- <-] HB. rewrite app_nil_r. do 2 f_equal.
    apply map_eq. intros p. by destruct (HB p) as [E|[E _]].
  - unfold raise. discriminate.
  - unfold bind at 1 3, pure at 1 2.
    destruct (check_limits self tot m) as [tot'|e]; [|discriminate].
    unfold bind at 1 2.
    destruct (extract_member cwd root m s) as [[[]|e] s'] eqn:E;
      [|discriminate].
    intros L HB.
    pose proof (extract_loop_keeps cwd self root rest tot' s') as HK.
    pose proof (TreeMore.extract_loop_evolved cwd self root rest tot' s')
      as HE.
    rewrite L in HK, HE. cbn [snd] in HK, HE.
    destruct (extract_member_again root m s s' (fs s1) B out E HK)
      as (B' & -> & HB'); [|done|].
    + intros p d Hp. destruct (HE p) as (_ & H2 & _). by eapply H2.
    + rewrite (IH _ _ _ _ L HB'). by rewrite <- app_assoc.
Qed.

(** X11. Extraction can be repeated: when [extract_archive] has returned
    [True], running it again on the same archive, with the same arguments, in
    the tree it has left returns [True] again, prints the same lines, and
    leaves the tree exactly as it found it - whatever the member names, also
    when several members go to the same place. *)
Theorem extracting_again_changes_nothing (self : t) (tar_path : string)
  (tar : Tar.stream) (extract_to : option string) (s s1 : state) :
  extract_archive cwd self tar_path tar extract_to s = (Return true, s1) ->
  exists lines : list string,
    stdout s1 = (stdout s ++ lines)%list
    /\ forall out : list string,
         extract_archive cwd self tar_path tar extract_to
           {| fs := fs s1; stdout := out |}
         = (Return true, {| fs := fs s1; stdout := (out ++ lines)%list |}).
Proof.
  rewrite extract_archive_run. cbv zeta.
  destruct (Fs.mkdir cwd false true _ (fs s)) as [e|fs1] eqn:M;
    [discriminate|].
  destruct (extract_loop cwd self _ tar zero _) as [[tot|e] s0] eqn:L;
    [|discriminate].
  intros [= <-].
  pose proof (extract_loop_keeps cwd self
                (extract_path_of tar_path extract_to) tar zero
                (Report.say {| fs := fs1; stdout := stdout s |}
                   (Report.extract_header tar_path
                      (extract_path_of tar_path extract_to)))) as HK.
  rewrite L in HK. cbn [snd fs Report.say] in HK.
  pose proof (WalkMore.extract_loop_stdout _ _ _ _ _ _ _ _ L) as [Hout _].
  cbn [Report.say stdout] in Hout.
  exists (Report.extract_header tar_path (extract_path_of tar_path extract_to)
          ++ flat_map More.extract_lines (Stream.members tar)
          ++ Report.extract_summary tot)%list.
  split.
  - cbn [Report.say stdout]. rewrite Hout. by rewrite <- !app_assoc.
  - intros out. rewrite extract_archive_run. cbv zeta.
    cbn [Report.say fs stdout].
    rewrite (mkdir_again _ _ _ _ _ M HK). unfold Report.say at 1.
    cbn [fs stdout].
    erewrite extract_loop_again; [|exact L|].
    + unfold Report.say. cbn [fs stdout]. by rewrite <- !app_assoc.
    + intros p. by left.
Qed.

End WithCwd.

(** Two regular files that go to the same place, and a directory. *)
Lemma extracting_again_changes_nothing_witness :
  let tar := Tar.archive [Sample.regular "a" "hi"; Sample.directory "d";
                          Sample.regular "d/../a" "yo"] in
  let r := extract_archive Sample.cwd Sample.processor "a.tar" tar
             (Some "out") Sample.start in
  fst r = Return true
  /\ extract_archive Sample.cwd Sample.processor "a.tar" tar (Some "out")
       {| fs := fs (snd r); stdout := [] |}
     = (Return true, {| fs := fs (snd r); stdout := stdout (snd r) |}).
Proof.
  cbv zeta. split; [vm_compute; reflexivity|].
  destruct (extracting_again_changes_nothing Sample.cwd Sample.processor
              "a.tar"
              (Tar.archive [Sample.regular "a" "hi"; Sample.directory "d";
                            Sample.regular "d/../a" "yo"])
              (Some "out") Sample.start
              (snd (extract_archive Sample.cwd Sample.processor "a.tar"
                      (Tar.archive [Sample.regular "a" "hi";
                                    Sample.directory "d";
                                    Sample.regular "d/../a" "yo"])
                      (Some "out") Sample.start)))
    as (lines & E & H).
  - vm_compute. reflexivity.
  - change (stdout Sample.start ++ lines)%list with lines in E.
    rewrite E. exact (H []).
Defined.

End AgainMore.

(** * Beyond the claims: [main] *)
Module MainMore.
Import Run SecureTarProcessor Totals TotalsFacts WalkFacts.

(** [list_archive] always returns, and leaves the tree alone. *)
Lemma list_archive_tree (self : t) (tar_path : string) (tar : Tar.stream)
  (s : state) :
  fs (snd (list_archive self tar_path tar s)) = fs s
  /\ exists b : bool, fst (list_archive self tar_path tar s) = Return b.
Proof.
  rewrite list_archive_run.
  destruct (list_loop_report self tar zero) as (o & lines & H). rewrite H.
  destruct o; simpl; eauto.
Qed.


(** X13. The program ends in a traceback in one situation only: the archive
    path exists, [--extract] was given, and the first [mkdir] of
    [extract_archive] - that of the destination, which stands before the
    [try] - raises. The exception is the one of that [mkdir], and nothing
    but that has happened: no line was printed, the tree is as it was. So
    listing never ends in a traceback, and whatever goes wrong once the
    destination is there ends in exit status 1. *)
Theorem traceback_only_from_the_destination (cwd : list string)
  (args : Cli.args) (tar : Tar.stream) (s : state) (e : Py.exn) :
  (fst (Cli.main cwd args tar s) = Cli.Traceback e <->
   Cli.os_path_exists cwd (fs s) (Cli.archive args) = true
   /\ Cli.extract args = true
   /\ Fs.mkdir cwd false true
        (extract_path_of (Cli.archive args) (Cli.output args)) (fs s)
      = inl e)
  /\ (fst (Cli.main cwd args tar s) = Cli.Traceback e ->
      snd (Cli.main cwd args tar s) = s).
Proof.
  unfold Cli.main.
  destruct (Cli.os_path_exists cwd (fs s) (Cli.archive args)); cbn [negb].
  2: { unfold print. cbn [fst snd]. split; [|discriminate].
       split; [discriminate|]. by intros [? _]. }
  set (P := __init__ (Some (Cli.max_size args)) (Some (Cli.max_files args))).
  destruct (Cli.extract args).
  - rewrite extract_archive_run. cbv zeta.
    destruct (Fs.mkdir cwd false true _ (fs s)) as [e0|fs1].
    + cbn [fst snd]. split; [|done].
      split; [by intros [= <-]|by intros (_ & _ & [= <-])].
    + destruct (extract_loop cwd P _ tar zero _) as [[tot|e0] s1];
        cbn [fst snd negb];
        (split; [|discriminate]);
        (split; [discriminate|by intros (_ & _ & ?)]).
  - destruct (list_archive_tree P (Cli.archive args) tar s) as [_ [b Hb]].
    destruct (list_archive P (Cli.archive args) tar s) as [[b'|e'] s'];
      cbn [fst snd] in *; [|discriminate].
    split; [|by destruct b'].
    split; [by destruct b'|]. by intros (_ & ? & _).
Qed.

(** A destination that is a regular file: [/srv/a.tar] is to be extracted
    to [a.tar] itself. *)
Lemma traceback_only_from_the_destination_witness :
  let tree := <[ ["srv"; "a.tar"] := Fs.File [] ]> Sample.tree0 in
  let args := {| Cli.archive := "a.tar"; Cli.extract := true;
                 Cli.output := Some "a.tar"; Cli.max_size := 100000000;
                 Cli.max_files := 1000 |} in
  Cli.main Sample.cwd args (Tar.archive [Sample.regular "a" "x"])
    {| fs := tree; stdout := [] |}
  = (Cli.Traceback (Py.OSError Py.EEXIST "a.tar"),
     {| fs := tree; stdout := [] |}).
Proof.
  cbv zeta.
  destruct (traceback_only_from_the_destination Sample.cwd
              {| Cli.archive := "a.tar"; Cli.extract := true;
                 Cli.output := Some "a.tar"; Cli.max_size := 100000000;
                 Cli.max_files := 1000 |}
              (Tar.archive [Sample.regular "a" "x"])
              {| fs := <[ ["srv"; "a.tar"] := Fs.File [] ]> Sample.tree0;
                 stdout := [] |}
              (Py.OSError Py.EEXIST "a.tar")) as [[_ H1] H2].
  assert (H : fst (Cli.main Sample.cwd
                     {| Cli.archive := "a.tar"; Cli.extract := true;
                        Cli.output := Some "a.tar";
                        Cli.max_size := 100000000; Cli.max_files := 1000 |}
                     (Tar.archive [Sample.regular "a" "x"])
                     {| fs := <[ ["srv"; "a.tar"] := Fs.File [] ]>
                                Sample.tree0;
                        stdout := [] |})
              = Cli.Traceback (Py.OSError Py.EEXIST "a.tar")).
  { apply H1. repeat split; vm_compute; reflexivity. }
  specialize (H2 H). revert H H2.
  destruct (Cli.main _ _ _ _) as [st s']. cbn [fst snd]. by intros -> ->.
Defined.


End MainMore.

(** * Beyond the claims: names the Path Sanitizer would accept *)
Module InsideMore.
Import Run SecureTarProcessor Totals Inv FsFacts WalkFacts.

Lemma only_dirs_outside_refl (D : list string) (fs : Fs.tree) :
  More.only_dirs_outside D fs fs.
Proof. intros p _. by left. Qed.

Lemma only_dirs_outside_trans (D : list string) (fs1 fs2 fs3 : Fs.tree) :
  More.only_dirs_outside D fs1 fs2 -> More.only_dirs_outside D fs2 fs3 ->
  More.only_dirs_outside D fs1 fs3.
Proof.
  intros H12 H23 p Hp.
  destruct (H12 p Hp) as [E12|[E1 E2]], (H23 p Hp) as [E23|[E3 E4]].
  - left. congruence.
  - right. split; congruence.
  - right. split; congruence.
  - congruence.
Qed.

Lemma adds_dirs_outside (D : list string) (fs fs' : Fs.tree) :
  adds_dirs fs fs' -> More.only_dirs_outside D fs fs'.
Proof. intros H p _. apply H. Qed.

Section WithCwd.
Variable cwd : list string.

Lemma resolve_lexical (fs : Fs.tree) (p : PurePath.t) (r : list string) :
  Fs.resolve cwd fs p = inr r -> r = More.lexical_node cwd p.
Proof. apply PathFacts.walk_norm. Qed.

(** The joined path of an accepted name leads inside the destination. *)
Lemma accepted_joinpath (root : PurePath.t) (name : string) :
  Spec.accepts (More.lexical_node cwd root) name = true ->
  More.lexical_node cwd root
    `prefix_of` More.lexical_node cwd (PurePath.joinpath root name).
Proof.
  intros Ha. pose proof (ExtractFacts.accepts_relative _ _ Ha) as Hr.
  apply ExtractFacts.accepts_inside in Ha.
  unfold PurePath.joinpath, PurePath.join. rewrite Hr.
  unfold More.lexical_node at 2.
  cbn [PurePath.absolute PurePath.anchor PurePath.parts].
  by rewrite PathFacts.norm_from_app.
Qed.

Lemma extract_member_inside (root : PurePath.t) (m : Tar.TarInfo)
  (s : state) :
  Spec.accepts (More.lexical_node cwd root) (Tar.name m) = true ->
  More.only_dirs_outside (More.lexical_node cwd root) (fs s)
    (fs (snd (extract_member cwd root m s))).
Proof.
  intros Ha. rewrite extract_member_run. cbv zeta.
  destruct (Fs.mkdir cwd true true _ (fs s)) as [e|A] eqn:M; cbn [snd fs];
    [apply only_dirs_outside_refl|].
  apply mkdir_adds, (adds_dirs_outside (More.lexical_node cwd root)) in M.
  destruct (Tar.isfile m).
  - destruct (Fs.open_wb cwd _ A) as [e|[r A0]] eqn:W; cbn [snd fs];
      [done|].
    apply open_wb_inv in W as (R & Hr & ->). apply resolve_lexical in R.
    assert (Hin : forall d : list Byte.byte,
               More.only_dirs_outside (More.lexical_node cwd root) A
                 (<[r := Fs.File d]> A)).
    { intros d p Hp. left. apply lookup_insert_ne.
      intros ->. apply Hp. rewrite R. by apply accepted_joinpath. }
    destruct (Tar.read m) as [e|content]; cbn [snd fs];
      rewrite ?write_open; by eapply only_dirs_outside_trans.
  - destruct (Tar.isdir m); cbn [snd fs]; [|done].
    destruct (Fs.mkdir cwd false true _ A) as [e|A1] eqn:W; cbn [snd fs];
      [done|].
    eapply only_dirs_outside_trans; [exact M|].
    by eapply adds_dirs_outside, mkdir_adds.
Qed.

Lemma extract_loop_inside (self : t) (root : PurePath.t) (tar : Tar.stream)
  (tot : totals) (s : state) :
  (forall m : Tar.TarInfo,
      In m (Stream.members tar) ->
      Spec.accepts (More.lexical_node cwd root) (Tar.name m) = true) ->
  More.only_dirs_outside (More.lexical_node cwd root) (fs s)
    (fs (snd (extract_loop cwd self root tar tot s))).
Proof.
  revert tot s. induction tar as [|e|m rest IH]; intros tot s Ha; simpl;
    try apply only_dirs_outside_refl.
  unfold bind at 1, pure at 1.
  destruct (check_limits self tot m) as [tot'|e]; simpl;
    [|apply only_dirs_outside_refl].
  unfold bind at 1.
  pose proof (extract_member_inside root m s (Ha m (or_introl eq_refl)))
    as Hm.
  destruct (extract_member cwd root m s) as [[[]|e] s1]; simpl in *; [|done].
  eapply only_dirs_outside_trans; [exact Hm|]. apply IH.
  intros m' H. apply Ha. by right.
Qed.

(** X16. In a tree of directories and regular files, without symbolic or
    hard links, the traversal is only open to names the Path Sanitizer of
    the specification would reject. Let [D] be the node the destination
    path leads to. If every member name is accepted for [D] - it is not
    absolute and its canonical join with [D] is [D] or below it - then,
    however the extraction ends, outside [D] no regular file is written,
    created or removed and no directory is removed: a node outside [D] is as
    it was, or was missing and is now a directory. (Directories can appear
    outside [D]: the ancestors of [../new/../out/k] are made with
    [parents=True], and [new] is one of them. And a link that is already
    under [D] leads a name that is accepted out of [D]: the trees of this
    development have none.) *)
Theorem accepted_names_write_inside (self : t) (tar_path : string)
  (tar : Tar.stream) (extract_to : option string) (s : state) :
  let D := More.lexical_node cwd (extract_path_of tar_path extract_to) in
  (forall m : Tar.TarInfo,
      In m (Stream.members tar) -> Spec.accepts D (Tar.name m) = true) ->
  (forall r : list string,
      Fs.resolve cwd (fs s) (extract_path_of tar_path extract_to) = inr r ->
      r = D)
  /\ More.only_dirs_outside D (fs s)
       (fs (snd (extract_archive cwd self tar_path tar extract_to s))).
Proof.
  cbv zeta. intros Ha. split; [intros r; apply resolve_lexical|].
  rewrite extract_archive_run. cbv zeta.
  destruct (Fs.mkdir cwd false true _ (fs s)) as [e|fs1] eqn:M;
    [apply only_dirs_outside_refl|].
  apply mkdir_adds,
    (adds_dirs_outside
       (More.lexical_node cwd (extract_path_of tar_path extract_to))) in M.
  pose proof (extract_loop_inside self (extract_path_of tar_path extract_to)
                tar zero
                (Report.say {| fs := fs1; stdout := stdout s |}
                   (Report.extract_header tar_path
                      (extract_path_of tar_path extract_to))) Ha) as L.
  destruct (extract_loop cwd self _ tar zero _) as [[tot|e] s1];
    cbn [fs snd Report.say] in *; by eapply only_dirs_outside_trans.
Qed.

End WithCwd.

(** The name [../new/../out/k], extracted to [out] from [/srv]: it is
    accepted, [/srv/out/k] is written, [/etc] is as it was, and the
    directory [/srv/new] has appeared beside [/srv/out]. *)
Lemma accepted_names_write_inside_witness :
  let r := extract_archive Sample.cwd Sample.processor "a.tar"
             (Tar.archive [Sample.regular "../new/../out/k" "hi"])
             (Some "out") Sample.start in
  More.only_dirs_outside ["srv"; "out"] Sample.tree0 (fs (snd r))
  /\ fst r = Return true
  /\ fs (snd r) !! ["srv"; "out"; "k"] = Some (Fs.File (Sample.bytes "hi"))
  /\ Sample.tree0 !! ["srv"; "new"] = None
  /\ fs (snd r) !! ["srv"; "new"] = Some Fs.Dir.
Proof.
  cbv zeta. split.
  - refine (proj2 (accepted_names_write_inside Sample.cwd Sample.processor
                     "a.tar"
                     (Tar.archive [Sample.regular "../new/../out/k" "hi"])
                     (Some "out") Sample.start _)).
    intros m [<-|[]]. vm_compute. reflexivity.
  - repeat split; vm_compute; reflexivity.
Defined.

End InsideMore.

(** * Beyond the claims: the columns of a listing *)
Module FormatMore.
Import SecureTarProcessor.

Lemma replicate_char_length (n : nat) (c : ascii) :
  String.length (Fmt.replicate_char n c) = n.
Proof. induction n as [|n IH]; simpl; [done|]. by rewrite IH. Qed.

Lemma ljust_length (w : nat) (s : string) :
  String.length (Fmt.ljust w s) = Nat.max w (String.length s).
Proof.
  unfold Fmt.ljust. rewrite NameMore.append_length, replicate_char_length.
  lia.
Qed.

Lemma rjust_length (w : nat) (s : string) :
  String.length (Fmt.rjust w s) = Nat.max w (String.length s).
Proof.
  unfold Fmt.rjust. rewrite NameMore.append_length, replicate_char_length.
  lia.
Qed.

(** X14. The columns of a listing: a member's line is its type character
    (one character: [f], [d], [l], [s] or [?], by the kind of the member),
    a space, the name padded to 40 columns, a space, the size padded to 10
    columns and [ bytes]. Nothing is ever cut: a name longer than 40
    characters or a size of more than 10 digits makes the line longer, and
    a line is 59 characters long otherwise. *)
Theorem member_line_width (m : Tar.TarInfo) :
  String.length (_get_type_char m) = 1%nat
  /\ String.length (member_line m)
     = (Nat.max 40 (String.length (Tar.name m))
        + Nat.max 10
            (String.length (Fmt.str_int (Tar.size m))) + 9)%nat
  /\ (_get_type_char m = "f" <-> Tar.type m = Tar.RegularFile)
  /\ (_get_type_char m = "d" <-> Tar.type m = Tar.Directory)
  /\ (_get_type_char m = "l" <-> Tar.type m = Tar.HardLink)
  /\ (_get_type_char m = "s" <-> Tar.type m = Tar.SymbolicLink)
  /\ (_get_type_char m = "?" <-> Tar.type m = Tar.Other).
Proof.
  assert (H1 : String.length (_get_type_char m) = 1%nat).
  { unfold _get_type_char, Tar.isfile, Tar.isdir, Tar.islnk, Tar.issym.
    by destruct (Tar.type m). }
  split; [exact H1|]. split.
  - unfold member_line.
    rewrite !NameMore.append_length, H1, ljust_length, rjust_length.
    simpl. lia.
  - unfold _get_type_char, Tar.isfile, Tar.isdir, Tar.islnk, Tar.issym.
    destruct (Tar.type m); repeat split; intros; congruence.
Qed.

End FormatMore.
